(** * Calibration decomposition script: [get_calibration_data.py]

    A shallow embedding of [scripts/transformation_matrix/get_calibration_data.py]
    and the properties of its three operations: the rigid-transform inverter
    [invert_T], the rotation decomposer [rpy_from_R] and the record transformer
    [get_info].

    Numbers.  Python's [float] and numpy's [float64] are idealised as the real
    numbers [R] of the Standard Library: rounding, overflow, NaN and the sign of
    zero are not modelled.  [float(...)] is therefore the identity.

    Arrays.  A 2-D numpy array is a [list (list R)] (row major), a 1-D array a
    [list R].  Slices never raise; integer indices out of range raise
    [IndexError]; a shape mismatch raises [ValueError]. *)

From Stdlib Require Import String Ascii.
From Stdlib Require Import Reals Lra RNsatz Bool Arith Lia List.
Import ListNotations.

Local Open Scope R_scope.

(** ** Exceptions and the error monad *)

Inductive exn : Type :=
| IndexError
| KeyError
| ValueError
| TypeError
| AttributeError.

Inductive result (A : Type) : Type :=
| Ok (a : A)
| Raise (e : exn).

Arguments Ok {A} a.
Arguments Raise {A} e.

Definition bind {A B : Type} (c : result A) (k : A -> result B) : result B :=
  match c with
  | Ok a => k a
  | Raise e => Raise e
  end.

Notation "x <- c ;; k" := (bind c (fun x => k))
  (at level 61, c at next level, right associativity).
Notation "' p <- c ;; k" := (bind c (fun x => let p := x in k))
  (at level 61, p pattern, c at next level, right associativity).

Definition of_option {A : Type} (e : exn) (o : option A) : result A :=
  match o with
  | Some a => Ok a
  | None => Raise e
  end.

Fixpoint mapM {A B : Type} (f : A -> result B) (l : list A) : result (list B) :=
  match l with
  | [] => Ok []
  | a :: l' => b <- f a ;; bs <- mapM f l' ;; Ok (b :: bs)
  end.

(** ** numpy primitives used by the script *)

Module np.

Definition vector := list R.
Definition ndarray := list (list R).

(** [v[i]] and [M[i, j]] with integer indices. *)
Definition item (v : vector) (i : nat) : result R :=
  of_option IndexError (nth_error v i).

Definition item2 (M : ndarray) (i j : nat) : result R :=
  row <- of_option IndexError (nth_error M i) ;; item row j.

(** Total readers, for stating results on arrays of a known shape. *)
Definition ent (M : ndarray) (i j : nat) : R := nth j (nth i M []) 0.

(** [shape r c M]: [M.shape == (r, c)]. *)
Definition shape (r c : nat) (M : ndarray) : Prop :=
  length M = r /\ Forall (fun row => length row = c) M.

Definition shapeb (r c : nat) (M : ndarray) : bool :=
  Nat.eqb (length M) r && forallb (fun row => Nat.eqb (length row) c) M.

(** [np.eye(n)]. *)
Definition eye (n : nat) : ndarray :=
  map (fun i => map (fun j => if Nat.eqb i j then 1 else 0) (seq 0 n)) (seq 0 n).

(** [M[:3, :3]]. *)
Definition block3 (M : ndarray) : ndarray := map (firstn 3) (firstn 3 M).

(** [M[:3, 3]]. *)
Definition col3 (M : ndarray) : result vector :=
  mapM (fun row => item row 3) (firstn 3 M).

(** [M.T]. *)
Definition transpose (M : ndarray) : ndarray :=
  map (fun j => map (fun row => nth j row 0) M) (seq 0 (length (hd [] M))).

(** [-M] and [-v]. *)
Definition neg (M : ndarray) : ndarray := map (map Ropp) M.

Definition dot (u v : vector) : R :=
  fold_right (fun p acc => fst p * snd p + acc) 0 (combine u v).

(** [M @ v] for a 2-D [M] and a 1-D [v]. *)
Definition matvec (M : ndarray) (v : vector) : result vector :=
  if forallb (fun row => Nat.eqb (length row) (length v)) M
  then Ok (map (fun row => dot row v) M)
  else Raise ValueError.

(** [A @ B] for 2-D arrays (used to state [invert_T(T) @ T]). *)
Definition matmul (A B : ndarray) : ndarray :=
  map (fun row => map (fun col => dot row col) (transpose B)) A.

(** [M[:3, :3] = B]: only an exactly 3x3 right-hand side is accepted (numpy
    would also broadcast 1x3, 3x1 and 1x1 arrays; the script never assigns
    one when its input has at least three rows and three columns). *)
Definition set_block3 (M B : ndarray) : result ndarray :=
  if shapeb 3 3 B && Nat.leb 3 (length M)
  then Ok (map (fun p => fst p ++ skipn 3 (snd p)) (combine B (firstn 3 M))
             ++ skipn 3 M)
  else Raise ValueError.

(** [M[:3, 3] = v]. *)
Definition set_col3 (M : ndarray) (v : vector) : result ndarray :=
  if Nat.eqb (length v) 3 && Nat.leb 3 (length M)
     && forallb (fun row => Nat.ltb 3 (length row)) (firstn 3 M)
  then Ok (map (fun p => firstn 3 (snd p) ++ fst p :: skipn 4 (snd p))
             (combine v (firstn 3 M))
             ++ skipn 3 M)
  else Raise ValueError.

(** [np.arctan2(y, x)] on the reals: the angle in (-PI, PI] of the point
    [(x, y)], and [0] at the origin. *)
Definition arctan2 (y x : R) : R :=
  if Rlt_dec 0 x then atan (y / x)
  else if Rlt_dec x 0 then
    if Rle_dec 0 y then atan (y / x) + PI else atan (y / x) - PI
  else if Rlt_dec 0 y then PI / 2
  else if Rlt_dec y 0 then - (PI / 2)
  else 0.

End np.

Import np.

(** ** The script *)

(** The six-field dictionary the script builds for each transform. *)
Record pose : Type := mk_pose {
  x : R; y : R; z : R; roll : R; pitch : R; yaw : R
}.

Definition get_empty_dict : pose := mk_pose 0 0 0 0 0 0.

Definition set_x (d : pose) (v : R) := mk_pose v (y d) (z d) (roll d) (pitch d) (yaw d).
Definition set_y (d : pose) (v : R) := mk_pose (x d) v (z d) (roll d) (pitch d) (yaw d).
Definition set_z (d : pose) (v : R) := mk_pose (x d) (y d) v (roll d) (pitch d) (yaw d).
Definition set_roll (d : pose) (v : R) := mk_pose (x d) (y d) (z d) v (pitch d) (yaw d).
Definition set_pitch (d : pose) (v : R) := mk_pose (x d) (y d) (z d) (roll d) v (yaw d).
Definition set_yaw (d : pose) (v : R) := mk_pose (x d) (y d) (z d) (roll d) (pitch d) v.

(** [invert_T(T)]:
<<
    R = T[:3,:3]; t = T[:3, 3]
    T_inv = np.eye(4); T_inv[:3,:3] = R.T; T_inv[:3, 3] = -R.T @ t
>> *)
Definition invert_T (T : ndarray) : result ndarray :=
  let Rot := block3 T in
  t <- col3 T ;;
  let T_inv := eye 4 in
  T_inv <- set_block3 T_inv (transpose Rot) ;;
  v <- matvec (neg (transpose Rot)) t ;;
  T_inv <- set_col3 T_inv v ;;
  Ok T_inv.

(** The gimbal-lock threshold of [rpy_from_R]. *)
Definition gimbal_eps : R := 1e-6.

(** [rpy_from_R(R)]; the result is the triple [(roll, pitch, yaw)]. *)
Definition rpy_from_R (Rot : ndarray) : result (R * R * R) :=
  r00 <- item2 Rot 0 0 ;;
  r10 <- item2 Rot 1 0 ;;
  let cos_beta := sqrt (r00 ^ 2 + r10 ^ 2) in
  if Rgt_dec cos_beta gimbal_eps then
    r21 <- item2 Rot 2 1 ;;
    r22 <- item2 Rot 2 2 ;;
    let yaw := arctan2 r21 r22 in
    r20 <- item2 Rot 2 0 ;;
    let pitch := arctan2 (- r20) cos_beta in
    r10 <- item2 Rot 1 0 ;;
    r00 <- item2 Rot 0 0 ;;
    let roll := arctan2 r10 r00 in
    Ok (roll, pitch, yaw)
  else
    r12 <- item2 Rot 1 2 ;;
    r02 <- item2 Rot 0 2 ;;
    let roll := arctan2 (- r12) r02 in
    r20 <- item2 Rot 2 0 ;;
    let pitch := arctan2 (- r20) cos_beta in
    let yaw := 0 in
    Ok (roll, pitch, yaw).

(** [xyz_rpy_from_T(v_T_sensor)]. *)
Definition xyz_rpy_from_T (v_T_sensor : ndarray) : result pose :=
  t <- col3 v_T_sensor ;;
  let Rot := block3 v_T_sensor in
  '(r, p, y) <- rpy_from_R Rot ;;
  let data := get_empty_dict in
  t0 <- item t 0 ;;
  let data := set_x data t0 in
  t1 <- item t 1 ;;
  let data := set_y data t1 in
  t2 <- item t 2 ;;
  let data := set_z data t2 in
  let data := set_roll data r in
  let data := set_pitch data p in
  let data := set_yaw data y in
  Ok data.

(** ** Python dictionaries and JSON values *)

(** A [dict] in insertion order.  [set] overwrites in place when the key is
    present and appends otherwise, as [d[k] = v] does. *)
Module dict.

Definition t (V : Type) : Type := list (string * V).

Fixpoint get {V : Type} (d : t V) (k : string) : option V :=
  match d with
  | [] => None
  | (k', v) :: d' => if String.eqb k' k then Some v else get d' k
  end.

Fixpoint set {V : Type} (d : t V) (k : string) (v : V) : t V :=
  match d with
  | [] => [(k, v)]
  | (k', v') :: d' =>
      if String.eqb k' k then (k', v) :: d' else (k', v') :: set d' k v
  end.

Definition keys {V : Type} (d : t V) : list string := map fst d.

(** Keys of a dictionary are pairwise distinct. *)
Definition wf {V : Type} (d : t V) : Prop := NoDup (keys d).

End dict.

(** What [json.load] returns. *)
#[local] Set Warnings "-register-all".
Inductive json : Type :=
| JNull
| JBool (b : bool)
| JNum (r : R)
| JStr (s : string)
| JArr (l : list json)
| JObj (d : list (string * json)).

(** [v[k]] for a string [k]. *)
Definition getitem (v : json) (k : string) : result json :=
  match v with
  | JObj d => of_option KeyError (dict.get d k)
  | _ => Raise TypeError
  end.

(** [list(v.keys())]. *)
Definition keys (v : json) : result (list string) :=
  match v with
  | JObj d => Ok (dict.keys d)
  | _ => Raise AttributeError
  end.

Definition json_number (v : json) : result R :=
  match v with
  | JNum r => Ok r
  | _ => Raise ValueError
  end.

Definition json_row (v : json) : result (list R) :=
  match v with
  | JArr cells => mapM json_number cells
  | _ => Raise ValueError
  end.

(** [np.array(v)] for a nested list of numbers with rows of equal length, the
    only values on which the rest of the script is modelled; anything else is
    rejected here. *)
Definition np_array (v : json) : result ndarray :=
  match v with
  | JArr rows =>
      M <- mapM json_row rows ;;
      if forallb (fun row => Nat.eqb (length row) (length (hd [] M))) M
      then Ok M else Raise ValueError
  | _ => Raise ValueError
  end.

Fixpoint foldM {A S : Type} (f : S -> A -> result S) (l : list A) (s : S)
  : result S :=
  match l with
  | [] => Ok s
  | a :: l' => s' <- f s a ;; foldM f l' s'
  end.

(** The name and inversion flag chosen on line 135 of the script. *)
Definition name_and_flag (transform each_key : string) : string * bool :=
  if String.eqb transform "cTv"
  then (("vTc_" ++ each_key)%string, true)
  else ((transform ++ "_" ++ each_key)%string, false).

(** One iteration of the loop of [get_info]. *)
Definition get_info_body (items : dict.t json) (xyzrpy : dict.t pose)
  (each_key : string) : result (dict.t pose) :=
  if negb (String.eqb each_key "state") then
    entry <- of_option KeyError (dict.get items each_key) ;;
    ext <- getitem entry "extrinsics" ;;
    ks <- keys ext ;;
    transform <- of_option IndexError (nth_error ks 0) ;;
    let '(name, v_T_sensor) := name_and_flag transform each_key in
    entry <- of_option KeyError (dict.get items each_key) ;;
    ext <- getitem entry "extrinsics" ;;
    m <- getitem ext transform ;;
    T <- np_array m ;;
    T <- (if v_T_sensor then invert_T T else Ok T) ;;
    data <- xyz_rpy_from_T T ;;
    Ok (dict.set xyzrpy name data)
  else Ok xyzrpy.

(** [get_info]: the argument is the content of the calibration file as
    [json.load] returns it, the result is the object dumped to
    [calibration_AudiQ8_xyzrpy.json]. *)
Definition get_info (items : dict.t json) : result (dict.t (dict.t pose)) :=
  let xyzrpy := [] in
  xyzrpy <- foldM (get_info_body items) (dict.keys items) xyzrpy ;;
  Ok [("Audi Q8"%string, xyzrpy)].

(** ** [invert_T] on a store of arrays

    numpy arrays are mutable objects and [T[:3,:3]], [T[:3, 3]] and [R.T] are
    views that share their buffer with [T].  The store below gives every array
    an address; a view is a reader of the store. *)
Module Store.

Definition ref : Type := nat.
Definition heap : Type := list ndarray.

Definition read (h : heap) (r : ref) : result ndarray :=
  of_option ValueError (nth_error h r).

Definition alloc (h : heap) (a : ndarray) : ref * heap :=
  (length h, h ++ [a]).

Fixpoint write (h : heap) (r : ref) (a : ndarray) : heap :=
  match h, r with
  | [], _ => []
  | _ :: h', O => a :: h'
  | b :: h', S r' => b :: write h' r' a
  end.

Definition view (A : Type) : Type := heap -> result A.

Definition invert_T (h : heap) (T : ref) : result (ref * heap) :=
  let Rot : view ndarray := fun h => A <- read h T ;; Ok (block3 A) in
  _ <- (A <- read h T ;; col3 A) ;;
  let t : view vector := fun h => A <- read h T ;; col3 A in
  let '(T_inv, h) := alloc h (eye 4) in
  rhs <- Rot h ;;
  cur <- read h T_inv ;;
  new <- set_block3 cur (transpose rhs) ;;
  let h := write h T_inv new in
  rot <- Rot h ;;
  tv <- t h ;;
  v <- matvec (neg (transpose rot)) tv ;;
  cur <- read h T_inv ;;
  new <- set_col3 cur v ;;
  let h := write h T_inv new in
  Ok (T_inv, h).

End Store.

(** ** Rotations about the fixed axes

    The construction of the round-trip properties: the rotation built from a
    roll about X, then a pitch about the fixed Y axis, then a yaw about the
    fixed Z axis (extrinsic X-Y-Z), that is [Rz(yaw) * Ry(pitch) * Rx(roll)],
    written out entry by entry. *)
Definition R_from_rpy (roll pitch yaw : R) : ndarray :=
  let cr := cos roll in let sr := sin roll in
  let cp := cos pitch in let sp := sin pitch in
  let cy := cos yaw in let sy := sin yaw in
  [ [ cy * cp; cy * sp * sr - sy * cr; cy * sp * cr + sy * sr ];
    [ sy * cp; sy * sp * sr + cy * cr; sy * sp * cr - cy * sr ];
    [ - sp;    cp * sr;                cp * cr ] ].

(** The three elementary rotations and their product, to check the entries
    above against. *)
Definition Rx (a : R) : ndarray :=
  [ [1; 0; 0]; [0; cos a; - sin a]; [0; sin a; cos a] ].
Definition Ry (a : R) : ndarray :=
  [ [cos a; 0; sin a]; [0; 1; 0]; [- sin a; 0; cos a] ].
Definition Rz (a : R) : ndarray :=
  [ [cos a; - sin a; 0]; [sin a; cos a; 0]; [0; 0; 1] ].

(** The determinant of a 3x3 array. *)
Definition det3 (M : ndarray) : R :=
  ent M 0 0 * (ent M 1 1 * ent M 2 2 - ent M 1 2 * ent M 2 1)
  - ent M 0 1 * (ent M 1 0 * ent M 2 2 - ent M 1 2 * ent M 2 0)
  + ent M 0 2 * (ent M 1 0 * ent M 2 1 - ent M 1 1 * ent M 2 0).

(** A rigid transform: 4x4, orthonormal rotation block of determinant 1,
    bottom row [0, 0, 0, 1]. *)
Definition rigid (T : ndarray) : Prop :=
  shape 4 4 T
  /\ matmul (block3 T) (transpose (block3 T)) = eye 3
  /\ det3 (block3 T) = 1
  /\ nth 3 T [] = [0; 0; 0; 1].

(** ** Quantities and inputs used in the statements *)

(** The quantity [cos_beta] of the script, on a 3x3 array. *)
Definition cos_pitch (M : ndarray) : R :=
  sqrt (ent M 0 0 ^ 2 + ent M 1 0 ^ 2).

(** The array [Ry(90 deg)], on which the first column vanishes. *)
Definition quarter_pitch : ndarray := [[0; 0; 1]; [0; 1; 0]; [-1; 0; 0]].

(** The transform of the end-to-end example: a translation by (1, 2, 3). *)
Definition translation_123 : ndarray :=
  [[1; 0; 0; 1]; [0; 1; 0; 2]; [0; 0; 1; 3]; [0; 0; 0; 1]].

(** A 4x4 array whose bottom row is not [0, 0, 0, 1]. *)
Definition skewed_bottom : ndarray :=
  [[1; 0; 0; 1]; [0; 1; 0; 2]; [0; 0; 1; 3]; [5; 6; 7; 8]].

(** The pose stored for a sensor: the decomposition of the inverse when the
    flag is set, of the array itself otherwise (lines 139 and 141). *)
Definition stored_pose (v_T_sensor : bool) (T : ndarray) : result pose :=
  T <- (if v_T_sensor then invert_T T else Ok T) ;; xyz_rpy_from_T T.

(** The calibration file of the end-to-end example, and the same file with
    the label ["cTv"]. *)
Definition json_translation_123 : json :=
  JArr [ JArr [JNum 1; JNum 0; JNum 0; JNum 1];
         JArr [JNum 0; JNum 1; JNum 0; JNum 2];
         JArr [JNum 0; JNum 0; JNum 1; JNum 3];
         JArr [JNum 0; JNum 0; JNum 0; JNum 1] ].

Definition cam0_entry (label : string) : dict.t json :=
  [ ("extrinsics"%string, JObj [ (label, json_translation_123) ]) ].

Definition cam0_file (label : string) : dict.t json :=
  [ ("cam0"%string, JObj (cam0_entry label)) ].

Definition is_sensor_key (k : string) : bool := negb (String.eqb k "state").

(** A sensor entry as the calibration file documents it: an [extrinsics]
    mapping with a single label, one of the two direction codes, over a 4x4
    array of numbers. *)
Definition valid_sensor (v : json) : Prop :=
  exists (e : dict.t json) (label : string) (m : json) (T : ndarray),
    v = JObj e
    /\ dict.get e "extrinsics" = Some (JObj [(label, m)])
    /\ (label = "vTc"%string \/ label = "cTv"%string)
    /\ np_array m = Ok T
    /\ shape 4 4 T.

Definition vTc_name (k : string) : string := ("vTc_" ++ k)%string.

(** A calibration file with the reserved key and two sensors. *)
Definition state_file : dict.t json :=
  [ ("state"%string, JStr "calibrated");
    ("cam0"%string, JObj (cam0_entry "vTc"));
    ("lidar0"%string, JObj (cam0_entry "cTv")) ].

(** The translation by [(a, b, c)], as an array and as it stands in a file,
    and a sensor entry that holds it under [label]. *)
Definition translation (a b c : R) : ndarray :=
  [[1; 0; 0; a]; [0; 1; 0; b]; [0; 0; 1; c]; [0; 0; 0; 1]].

Definition json_translation (a b c : R) : json :=
  JArr [ JArr [JNum 1; JNum 0; JNum 0; JNum a];
         JArr [JNum 0; JNum 1; JNum 0; JNum b];
         JArr [JNum 0; JNum 0; JNum 1; JNum c];
         JArr [JNum 0; JNum 0; JNum 0; JNum 1] ].

Definition translation_entry (label : string) (a b c : R) : dict.t json :=
  [ ("extrinsics"%string, JObj [ (label, json_translation a b c) ]) ].

(** The calibration file without its ["state"] entry. *)
Definition drop_state (items : dict.t json) : dict.t json :=
  filter (fun kv => is_sensor_key (fst kv)) items.

(** * Properties *)

(** ** Arrays of a known shape *)

Lemma length_3_inv {A : Type} (l : list A) :
  length l = 3%nat -> exists a b c, l = [a; b; c].
Proof.
  destruct l as [|a [|b [|c [|d l]]]]; simpl; try discriminate.
  intros _. now exists a, b, c.
Qed.

Lemma length_4_inv {A : Type} (l : list A) :
  length l = 4%nat -> exists a b c d, l = [a; b; c; d].
Proof.
  destruct l as [|a [|b [|c [|d [|e l]]]]]; simpl; try discriminate.
  intros _. now exists a, b, c, d.
Qed.

Lemma shape_3_3_inv (M : ndarray) :
  shape 3 3 M ->
  exists a00 a01 a02 a10 a11 a12 a20 a21 a22,
    M = [[a00; a01; a02]; [a10; a11; a12]; [a20; a21; a22]].
Proof.
  intros [Hl Hr].
  destruct (length_3_inv _ Hl) as (r0 & r1 & r2 & ->).
  inversion Hr as [|? ? H0 Hr1]; subst.
  inversion Hr1 as [|? ? H1 Hr2]; subst.
  inversion Hr2 as [|? ? H2 _]; subst.
  destruct (length_3_inv _ H0) as (a00 & a01 & a02 & ->).
  destruct (length_3_inv _ H1) as (a10 & a11 & a12 & ->).
  destruct (length_3_inv _ H2) as (a20 & a21 & a22 & ->).
  now exists a00, a01, a02, a10, a11, a12, a20, a21, a22.
Qed.

Lemma shape_4_4_inv (M : ndarray) :
  shape 4 4 M ->
  exists a00 a01 a02 a03 a10 a11 a12 a13 a20 a21 a22 a23 a30 a31 a32 a33,
    M = [[a00; a01; a02; a03]; [a10; a11; a12; a13];
         [a20; a21; a22; a23]; [a30; a31; a32; a33]].
Proof.
  intros [Hl Hr].
  destruct (length_4_inv _ Hl) as (r0 & r1 & r2 & r3 & ->).
  inversion Hr as [|? ? H0 Hr1]; subst.
  inversion Hr1 as [|? ? H1 Hr2]; subst.
  inversion Hr2 as [|? ? H2 Hr3]; subst.
  inversion Hr3 as [|? ? H3 _]; subst.
  destruct (length_4_inv _ H0) as (a00 & a01 & a02 & a03 & ->).
  destruct (length_4_inv _ H1) as (a10 & a11 & a12 & a13 & ->).
  destruct (length_4_inv _ H2) as (a20 & a21 & a22 & a23 & ->).
  destruct (length_4_inv _ H3) as (a30 & a31 & a32 & a33 & ->).
  now exists a00, a01, a02, a03, a10, a11, a12, a13,
             a20, a21, a22, a23, a30, a31, a32, a33.
Qed.

Lemma shape_intro (r c : nat) (M : ndarray) : shapeb r c M = true -> shape r c M.
Proof.
  unfold shapeb, shape. intros H.
  apply andb_true_iff in H as [Hl Hr].
  apply Nat.eqb_eq in Hl. split; [exact Hl|].
  apply Forall_forall. intros row Hin.
  rewrite forallb_forall in Hr. now apply Nat.eqb_eq, Hr.
Qed.

(** ** [np.arctan2] *)

Lemma arctan2_pos (y x : R) : 0 < x -> arctan2 y x = atan (y / x).
Proof. intros Hx. unfold arctan2. destruct (Rlt_dec 0 x); [reflexivity|lra]. Qed.

Lemma arctan2_0_pos (x : R) : 0 < x -> arctan2 0 x = 0.
Proof.
  intros Hx. rewrite arctan2_pos by assumption.
  replace (0 / x) with 0 by (field; lra). apply atan_0.
Qed.


(** A positive common factor does not change the angle. *)
Lemma arctan2_scale (k y x : R) :
  0 < k -> arctan2 (k * y) (k * x) = arctan2 y x.
Proof.
  intros Hk. unfold arctan2.
  assert (Hq : x <> 0 -> k * y / (k * x) = y / x) by (intros; field; lra).
  destruct (Rlt_dec 0 x) as [Hx|Hx].
  - destruct (Rlt_dec 0 (k * x)) as [_|C]; [|exfalso; apply C; nra].
    rewrite Hq by lra. reflexivity.
  - destruct (Rlt_dec 0 (k * x)) as [C|_]; [exfalso; nra|].
    destruct (Rlt_dec x 0) as [Hx'|Hx'].
    + destruct (Rlt_dec (k * x) 0) as [_|C]; [|exfalso; apply C; nra].
      rewrite Hq by lra.
      destruct (Rle_dec 0 y), (Rle_dec 0 (k * y)); try reflexivity;
        exfalso; nra.
    + destruct (Rlt_dec (k * x) 0) as [C|_]; [exfalso; nra|].
      destruct (Rlt_dec 0 y), (Rlt_dec 0 (k * y)); try (exfalso; nra);
        [reflexivity|].
      destruct (Rlt_dec y 0), (Rlt_dec (k * y) 0); try reflexivity;
        exfalso; nra.
Qed.

Lemma cos_pos_range (a : R) :
  - PI < a <= PI -> 0 < cos a -> - (PI / 2) < a < PI / 2.
Proof.
  intros [Hl Hu] Hc. split.
  - destruct (Rlt_dec (- (PI / 2)) a) as [|N]; [assumption|exfalso].
    assert (H : cos (- a) <= 0) by (apply cos_le_0; lra).
    rewrite cos_neg in H. lra.
  - destruct (Rlt_dec a (PI / 2)) as [|N]; [assumption|exfalso].
    assert (H : cos a <= 0) by (apply cos_le_0; lra). lra.
Qed.

Lemma tan_shift_PI (a : R) : tan (a + PI) = tan a.
Proof.
  unfold tan. rewrite neg_sin, neg_cos.
  unfold Rdiv. rewrite Rinv_opp. ring.
Qed.

(** [arctan2] recovers the angle of a point of the unit circle. *)
Lemma arctan2_sin_cos (a : R) :
  - PI < a <= PI -> arctan2 (sin a) (cos a) = a.
Proof.
  intros Ha. pose proof PI_RGT_0 as Hpi. unfold arctan2.
  destruct (Rlt_dec 0 (cos a)) as [Hc|Hc].
  - apply atan_tan. now apply cos_pos_range.
  - destruct (Rlt_dec (cos a) 0) as [Hc'|Hc'].
    + destruct (Rle_dec 0 (sin a)) as [Hs|Hs].
      * assert (Hpos : 0 <= a).
        { destruct (Rle_dec 0 a) as [|N]; [assumption|exfalso].
          assert (sin a < 0) by (apply sin_lt_0_var; lra). lra. }
        assert (Hr : PI / 2 < a).
        { destruct (Rlt_dec (PI / 2) a) as [|N]; [assumption|exfalso].
          assert (0 <= cos a) by (apply cos_ge_0; lra). lra. }
        change (sin a / cos a) with (tan a).
        replace (tan a) with (tan (a - PI)).
        -- rewrite atan_tan by lra. ring.
        -- rewrite <- (tan_shift_PI (a - PI)). f_equal. ring.
      * assert (Hneg : a < 0).
        { destruct (Rlt_dec a 0) as [|N]; [assumption|exfalso].
          assert (0 <= sin a) by (apply sin_ge_0; lra). lra. }
        assert (Hr : a < - (PI / 2)).
        { destruct (Rlt_dec a (- (PI / 2))) as [|N]; [assumption|exfalso].
          assert (0 <= cos a) by (apply cos_ge_0; lra). lra. }
        change (sin a / cos a) with (tan a).
        rewrite <- (tan_shift_PI a).
        rewrite atan_tan by lra. ring.
    + assert (H0 : cos a = 0) by lra.
      assert (Hcases : a = PI / 2 \/ a = - (PI / 2)).
      { destruct (Rle_dec 0 a) as [Hp|Hn].
        - destruct (cos_eq_0_2PI_0 a) as [E|E]; try lra.
        - destruct (cos_eq_0_2PI_0 (- a)) as [E|E]; try lra.
          rewrite cos_neg. assumption. }
      destruct Hcases as [E|E]; rewrite E.
      * rewrite sin_PI2. destruct (Rlt_dec 0 1); lra.
      * rewrite sin_neg, sin_PI2.
        repeat match goal with
               | |- context [Rlt_dec ?u ?v] => destruct (Rlt_dec u v)
               end; lra.
Qed.

(** ** The rotation decomposer [rpy_from_R] *)


Lemma rpy_from_R_regular (M : ndarray) :
  shape 3 3 M ->
  cos_pitch M > gimbal_eps ->
  rpy_from_R M =
    Ok (arctan2 (ent M 1 0) (ent M 0 0),
        arctan2 (- ent M 2 0) (cos_pitch M),
        arctan2 (ent M 2 1) (ent M 2 2)).
Proof.
  intros Hs Hc.
  destruct (shape_3_3_inv M Hs)
    as (a00 & a01 & a02 & a10 & a11 & a12 & a20 & a21 & a22 & ->).
  unfold cos_pitch in *. cbn -[pow sqrt arctan2] in *.
  destruct (Rgt_dec _ _) as [_|N]; [reflexivity|contradiction].
Qed.

Lemma rpy_from_R_gimbal (M : ndarray) :
  shape 3 3 M ->
  cos_pitch M <= gimbal_eps ->
  rpy_from_R M =
    Ok (arctan2 (- ent M 1 2) (ent M 0 2),
        arctan2 (- ent M 2 0) (cos_pitch M),
        0).
Proof.
  intros Hs Hc.
  destruct (shape_3_3_inv M Hs)
    as (a00 & a01 & a02 & a10 & a11 & a12 & a20 & a21 & a22 & ->).
  unfold cos_pitch in *. cbn -[pow sqrt arctan2] in *.
  destruct (Rgt_dec _ _) as [Y|_]; [exfalso; lra|reflexivity].
Qed.

Lemma gimbal_eps_bounds : 0 < gimbal_eps < 1.
Proof. unfold gimbal_eps. lra. Qed.

Lemma eye_3_shape : shape 3 3 (eye 3).
Proof. apply shape_intro. reflexivity. Qed.

Lemma eye_4_shape : shape 4 4 (eye 4).
Proof. apply shape_intro. reflexivity. Qed.

Lemma cos_pitch_eye_3 : cos_pitch (eye 3) = 1.
Proof.
  unfold cos_pitch. cbn -[pow sqrt].
  replace (1 ^ 2 + 0 ^ 2) with 1 by ring. apply sqrt_1.
Qed.

Lemma quarter_pitch_shape : shape 3 3 quarter_pitch.
Proof. apply shape_intro. reflexivity. Qed.

Lemma cos_pitch_quarter_pitch : cos_pitch quarter_pitch = 0.
Proof.
  unfold cos_pitch. cbn -[pow sqrt].
  replace (0 ^ 2 + 0 ^ 2) with 0 by ring. apply sqrt_0.
Qed.

(** C3.  On every 3x3 array [rpy_from_R] compares
    [cos_pitch = sqrt(R[0,0]^2 + R[1,0]^2)] with [1e-6]: above the threshold it
    returns [roll = atan2(R[1,0], R[0,0])], [pitch = atan2(-R[2,0], cos_pitch)]
    and [yaw = atan2(R[2,1], R[2,2])]; otherwise it returns the triple of the
    gimbal-lock branch. *)
Theorem rpy_from_R_regular_case (M : ndarray) :
  shape 3 3 M ->
  (cos_pitch M > gimbal_eps ->
   rpy_from_R M =
     Ok (arctan2 (ent M 1 0) (ent M 0 0),
         arctan2 (- ent M 2 0) (cos_pitch M),
         arctan2 (ent M 2 1) (ent M 2 2)))
  /\ (~ cos_pitch M > gimbal_eps ->
      rpy_from_R M =
        Ok (arctan2 (- ent M 1 2) (ent M 0 2),
            arctan2 (- ent M 2 0) (cos_pitch M),
            0)).
Proof.
  intros Hs. split; intros Hc.
  - now apply rpy_from_R_regular.
  - apply rpy_from_R_gimbal; [assumption|lra].
Qed.

Lemma rpy_from_R_regular_case_witness :
  rpy_from_R (eye 3) =
    Ok (arctan2 0 1, arctan2 (- 0) (cos_pitch (eye 3)), arctan2 0 1)
  /\ rpy_from_R quarter_pitch =
       Ok (arctan2 (- 0) 1, arctan2 (- -1) (cos_pitch quarter_pitch), 0).
Proof.
  split.
  - apply (proj1 (rpy_from_R_regular_case (eye 3) eye_3_shape)).
    rewrite cos_pitch_eye_3. pose proof gimbal_eps_bounds. lra.
  - apply (proj2 (rpy_from_R_regular_case quarter_pitch quarter_pitch_shape)).
    rewrite cos_pitch_quarter_pitch. pose proof gimbal_eps_bounds. lra.
Defined.



(** C7.  Decomposing the 4x4 identity gives the pose with all six fields 0. *)
Theorem xyz_rpy_from_T_identity :
  xyz_rpy_from_T (eye 4) = Ok (mk_pose 0 0 0 0 0 0).
Proof.
  unfold xyz_rpy_from_T.
  change (col3 (eye 4)) with (Ok [0; 0; 0]).
  change (block3 (eye 4)) with (eye 3).
  cbn [bind].
  rewrite (rpy_from_R_regular (eye 3) eye_3_shape)
    by (rewrite cos_pitch_eye_3; pose proof gimbal_eps_bounds; lra).
  rewrite cos_pitch_eye_3.
  cbn -[arctan2].
  replace (- 0) with 0 by ring.
  rewrite (arctan2_0_pos 1) by lra.
  reflexivity.
Qed.

(** ** Gimbal lock *)

Lemma R_from_rpy_shape (r p w : R) : shape 3 3 (R_from_rpy r p w).
Proof. apply shape_intro. reflexivity. Qed.

(** [R_from_rpy] is the product [Rz(yaw) @ (Ry(pitch) @ Rx(roll))]. *)
Lemma R_from_rpy_product (r p w : R) :
  R_from_rpy r p w = matmul (Rz w) (matmul (Ry p) (Rx r)).
Proof.
  unfold R_from_rpy, Rx, Ry, Rz. cbn -[cos sin].
  repeat (f_equal; try ring).
Qed.

Lemma cos_pitch_quarter (r w : R) : cos_pitch (R_from_rpy r (PI / 2) w) = 0.
Proof.
  unfold cos_pitch. cbn -[pow sqrt cos sin PI].
  rewrite cos_PI2.
  replace ((cos w * 0) ^ 2 + (sin w * 0) ^ 2) with 0 by ring.
  apply sqrt_0.
Qed.

Lemma arctan2_1_0 : arctan2 1 0 = PI / 2.
Proof.
  unfold arctan2.
  repeat match goal with
         | |- context [Rlt_dec ?u ?v] => destruct (Rlt_dec u v)
         end; lra.
Qed.

Lemma rpy_from_R_quarter (r w : R) :
  - PI < r - w <= PI ->
  rpy_from_R (R_from_rpy r (PI / 2) w) = Ok (r - w, PI / 2, 0).
Proof.
  intros Hrange.
  rewrite (rpy_from_R_gimbal _ (R_from_rpy_shape _ _ _))
    by (rewrite cos_pitch_quarter; pose proof gimbal_eps_bounds; lra).
  rewrite cos_pitch_quarter.
  cbn -[arctan2 cos sin PI].
  rewrite sin_PI2.
  replace (- (sin w * 1 * cos r - cos w * sin r)) with (sin (r - w))
    by (rewrite sin_minus; ring).
  replace (cos w * 1 * cos r + sin w * sin r) with (cos (r - w))
    by (rewrite cos_minus; ring).
  rewrite arctan2_sin_cos by assumption.
  replace (- - (1)) with 1 by ring.
  rewrite arctan2_1_0. reflexivity.
Qed.

(** At a pitch of 90 degrees the rotation depends on roll and yaw only through
    their difference. *)
Lemma R_from_rpy_quarter_combined (r w : R) :
  R_from_rpy r (PI / 2) w = R_from_rpy (r - w) (PI / 2) 0.
Proof.
  unfold R_from_rpy. cbn zeta.
  rewrite cos_PI2, sin_PI2, cos_0, sin_0, sin_minus, cos_minus.
  repeat (f_equal; try ring).
Qed.

(** C2.  In the gimbal-lock branch ([cos_pitch <= 1e-6]) [rpy_from_R] returns
    [yaw = 0] exactly, [roll = atan2(-R[1,2], R[0,2])] and
    [pitch = atan2(-R[2,0], cos_pitch)].  In particular, for the rotation built
    with a pitch of exactly 90 degrees the returned yaw is [0], the pitch is
    [PI/2] and the roll is the combined angle [roll - yaw] (taken in
    (-PI, PI]), which with yaw 0 rebuilds the same rotation. *)
Theorem rpy_from_R_gimbal_lock :
  (forall M : ndarray,
      shape 3 3 M ->
      cos_pitch M <= gimbal_eps ->
      rpy_from_R M =
        Ok (arctan2 (- ent M 1 2) (ent M 0 2),
            arctan2 (- ent M 2 0) (cos_pitch M),
            0))
  /\ (forall r w : R,
         - PI < r - w <= PI ->
         rpy_from_R (R_from_rpy r (PI / 2) w) = Ok (r - w, PI / 2, 0)
         /\ R_from_rpy (r - w) (PI / 2) 0 = R_from_rpy r (PI / 2) w).
Proof.
  split.
  - exact rpy_from_R_gimbal.
  - intros r w Hrange. split.
    + now apply rpy_from_R_quarter.
    + symmetry. apply R_from_rpy_quarter_combined.
Qed.

Lemma rpy_from_R_gimbal_lock_witness :
  rpy_from_R quarter_pitch =
    Ok (arctan2 (- 0) 1, arctan2 (- -1) (cos_pitch quarter_pitch), 0)
  /\ rpy_from_R (R_from_rpy 1 (PI / 2) 0) = Ok (1 - 0, PI / 2, 0).
Proof.
  split.
  - apply (proj1 rpy_from_R_gimbal_lock quarter_pitch quarter_pitch_shape).
    rewrite cos_pitch_quarter_pitch. pose proof gimbal_eps_bounds. lra.
  - apply (proj2 rpy_from_R_gimbal_lock 1 0).
    pose proof PI2_3_2. lra.
Defined.

(** ** Away from gimbal lock *)

Lemma PI_gt_3 : 3 < PI.
Proof. pose proof PI2_3_2. lra. Qed.

Lemma INR_fact_val (n : nat) (k : Z) :
  Z.of_nat (fact n) = k -> INR (fact n) = IZR k.
Proof. intros <-. apply INR_IZR_INZ. Qed.

(** One degree is far above the threshold: [1e-6 < sin(1 deg)]. *)
Lemma sin_one_degree : gimbal_eps < sin (PI / 180).
Proof.
  pose proof PI_gt_3 as H3. pose proof PI_4 as H4.
  assert (Ha : 0 <= PI / 180) by lra.
  assert (Hb : PI / 180 <= PI) by lra.
  destruct (SIN (PI / 180) Ha Hb) as [Hlb _].
  unfold sin_lb, sin_approx in Hlb. cbn [sum_f_R0] in Hlb.
  unfold sin_term in Hlb.
  rewrite (INR_fact_val (2 * 0 + 1) 1 eq_refl),
          (INR_fact_val (2 * 1 + 1) 6 eq_refl),
          (INR_fact_val (2 * 2 + 1) 120 eq_refl),
          (INR_fact_val (2 * 3 + 1) 5040 eq_refl) in Hlb.
  cbn [Nat.mul Nat.add pow] in Hlb.
  set (a := PI / 180) in *.
  assert (Ha1 : 1 / 60 < a) by (unfold a; lra).
  assert (Ha2 : a <= 1 / 45) by (unfold a; lra).
  clearbody a. unfold gimbal_eps.
  assert (H2 : a * a <= 1 / 2025) by nra.
  assert (H3' : a * (a * (a * 1)) <= 1 / 2025 * (1 / 45)) by nra.
  assert (H5 : 0 <= a * (a * (a * (a * (a * 1)))))
    by (repeat apply Rmult_le_pos; lra).
  assert (H7 : a * (a * (a * (a * (a * (a * (a * 1)))))) <= 1).
  { replace (a * (a * (a * (a * (a * (a * (a * 1)))))))
      with ((a * (a * (a * 1))) * (a * a) * (a * a)) by ring.
    assert (0 <= a * (a * (a * 1))) by (repeat apply Rmult_le_pos; lra).
    assert (0 <= a * a) by nra.
    set (c := a * (a * (a * 1))) in *. set (b := a * a) in *.
    assert (c <= 1) by lra. assert (b <= 1) by lra.
    assert (0 <= c * b <= 1) by nra. nra. }
  lra.
Qed.

(** Within 89 degrees of level the cosine of the pitch exceeds the threshold. *)
Lemma cos_above_eps (p : R) :
  Rabs p < 89 * (PI / 180) -> gimbal_eps < cos p.
Proof.
  intros Hp. pose proof PI_gt_3 as H3.
  assert (Hc : cos (89 * (PI / 180)) < cos (Rabs p)).
  { pose proof (Rabs_pos p). apply cos_decreasing_1; lra. }
  assert (Habs : cos (Rabs p) = cos p).
  { unfold Rabs. destruct (Rcase_abs p); [apply cos_neg|reflexivity]. }
  assert (Hs : cos (89 * (PI / 180)) = sin (PI / 180)).
  { rewrite <- (sin_shift (89 * (PI / 180))). f_equal. field. }
  pose proof sin_one_degree. lra.
Qed.

Lemma cos_pitch_R_from_rpy (r p w : R) :
  0 <= cos p -> cos_pitch (R_from_rpy r p w) = cos p.
Proof.
  intros Hc. unfold cos_pitch. cbn -[pow sqrt cos sin].
  replace ((cos w * cos p) ^ 2 + (sin w * cos p) ^ 2)
    with ((cos p) ^ 2 * ((sin w)² + (cos w)²)) by (unfold Rsqr; ring).
  rewrite sin2_cos2, Rmult_1_r. now apply sqrt_pow2.
Qed.

(** What the regular branch returns on a rotation built from roll about X,
    pitch about Y and yaw about Z: the first component is the angle about Z
    and the third the angle about X. *)
Lemma rpy_from_R_of_R_from_rpy (r p w : R) :
  - PI < r <= PI ->
  Rabs p < 89 * (PI / 180) ->
  - PI < w <= PI ->
  rpy_from_R (R_from_rpy r p w) = Ok (w, p, r).
Proof.
  intros Hr Hp Hw.
  pose proof (cos_above_eps p Hp) as Hc.
  pose proof gimbal_eps_bounds as He.
  pose proof PI_gt_3 as H3.
  assert (Hp' : - PI < p <= PI).
  { apply Rabs_def2 in Hp. lra. }
  rewrite (rpy_from_R_regular _ (R_from_rpy_shape _ _ _))
    by (rewrite cos_pitch_R_from_rpy; lra).
  rewrite cos_pitch_R_from_rpy by lra.
  cbn -[arctan2 cos sin].
  replace (sin w * cos p) with (cos p * sin w) by ring.
  replace (cos w * cos p) with (cos p * cos w) by ring.
  rewrite !arctan2_scale by lra.
  rewrite Ropp_involutive.
  rewrite !arctan2_sin_cos by assumption.
  reflexivity.
Qed.

Lemma R_from_rpy_roll_quarter :
  R_from_rpy (PI / 2) 0 0 = [[1; 0; 0]; [0; 0; -1]; [0; 1; 0]].
Proof.
  unfold R_from_rpy. cbn zeta. rewrite cos_PI2, sin_PI2, cos_0, sin_0.
  repeat (f_equal; try ring).
Qed.

(** C5.  The round trip through the extrinsic X-Y-Z construction does not give
    the triple back: a pure roll of 90 degrees about X comes out of
    [rpy_from_R] as a yaw of 90 degrees with roll 0. *)
Theorem rpy_from_R_roll_comes_back_as_yaw :
  rpy_from_R (R_from_rpy (PI / 2) 0 0) = Ok (0, 0, PI / 2)
  /\ (0, 0, PI / 2) <> (PI / 2, 0, 0).
Proof.
  split.
  - rewrite (rpy_from_R_of_R_from_rpy (PI / 2) 0 0); pose proof PI_gt_3.
    + reflexivity.
    + lra.
    + rewrite Rabs_R0. lra.
    + lra.
  - intros E. injection E as E1 E2. pose proof PI_gt_3. lra.
Qed.

(** ** The rigid-transform inverter [invert_T] *)

Lemma cons_eq {A : Type} (a b : A) (l m : list A) :
  a = b -> l = m -> a :: l = b :: m.
Proof. now intros -> ->. Qed.

(** Reduce an equation between explicit lists to equations between entries. *)
Ltac entrywise := repeat first [ apply cons_eq | exact eq_refl ].

(** On a 4x4 array [invert_T] returns [R^T] and [-R^T t] over the row
    [0, 0, 0, 1]. *)
Lemma invert_T_4_4 (T : ndarray) :
  shape 4 4 T ->
  invert_T T =
    Ok [ [ent T 0 0; ent T 1 0; ent T 2 0;
          dot [- ent T 0 0; - ent T 1 0; - ent T 2 0]
              [ent T 0 3; ent T 1 3; ent T 2 3]];
         [ent T 0 1; ent T 1 1; ent T 2 1;
          dot [- ent T 0 1; - ent T 1 1; - ent T 2 1]
              [ent T 0 3; ent T 1 3; ent T 2 3]];
         [ent T 0 2; ent T 1 2; ent T 2 2;
          dot [- ent T 0 2; - ent T 1 2; - ent T 2 2]
              [ent T 0 3; ent T 1 3; ent T 2 3]];
         [0; 0; 0; 1] ].
Proof.
  intros Hs.
  destruct (shape_4_4_inv T Hs)
    as (a00 & a01 & a02 & a03 & a10 & a11 & a12 & a13 &
        a20 & a21 & a22 & a23 & a30 & a31 & a32 & a33 & ->).
  reflexivity.
Qed.

(** C4.  For a rigid transform [T] (4x4, rotation block with [R @ R^T = I] and
    determinant 1, bottom row [0, 0, 0, 1]) [invert_T] succeeds,
    [invert_T(invert_T(T))] is [T] and [invert_T(T) @ T] is the 4x4 identity. *)
Theorem invert_T_round_trip (T : ndarray) :
  rigid T ->
  exists T_inv : ndarray,
    invert_T T = Ok T_inv
    /\ invert_T T_inv = Ok T
    /\ matmul T_inv T = eye 4.
Proof.
  intros (Hs & Horth & Hdet & Hbot).
  destruct (shape_4_4_inv T Hs)
    as (a00 & a01 & a02 & a03 & a10 & a11 & a12 & a13 &
        a20 & a21 & a22 & a23 & a30 & a31 & a32 & a33 & ->).
  cbn in Hbot. injection Hbot as -> -> -> ->.
  unfold det3 in Hdet. cbn in Hdet.
  cbn in Horth.
  injection Horth as H00 H01 H02 H10 H11 H12 H20 H21 H22.
  eexists. split; [cbn; reflexivity|]. split.
  - cbn. f_equal. entrywise; nsatz.
  - cbn. entrywise; nsatz.
Qed.

Lemma translation_123_rigid : rigid translation_123.
Proof.
  repeat split.
  - repeat constructor.
  - cbn. entrywise; ring.
  - unfold det3. cbn. ring.
Qed.

Lemma invert_T_round_trip_witness :
  exists T_inv : ndarray,
    invert_T translation_123 = Ok T_inv
    /\ invert_T T_inv = Ok translation_123
    /\ matmul T_inv translation_123 = eye 4.
Proof. exact (invert_T_round_trip translation_123 translation_123_rigid). Defined.

(** *** Frame: [invert_T] on the store *)

Lemma read_alloc (h : Store.heap) (a : ndarray) :
  Store.read (h ++ [a]) (length h) = Ok a.
Proof.
  unfold Store.read. rewrite nth_error_app2 by lia.
  now rewrite Nat.sub_diag.
Qed.

Lemma write_alloc (h : Store.heap) (a b : ndarray) :
  Store.write (h ++ [a]) (length h) b = h ++ [b].
Proof. induction h as [|c h IH]; simpl; [reflexivity|now rewrite IH]. Qed.

Lemma read_old (h : Store.heap) (a A : ndarray) (r : Store.ref) :
  Store.read h r = Ok A -> Store.read (h ++ [a]) r = Ok A.
Proof.
  unfold Store.read. intros H.
  destruct (nth_error h r) as [A'|] eqn:E; [|discriminate].
  now rewrite (nth_error_app1 h [a] (proj1 (nth_error_Some h r) ltac:(congruence))), E.
Qed.

(** C10.  [invert_T] allocates its result (a fresh address), leaves the array
    at [T] and every other array of the store unchanged, returns the value
    computed by the pure [invert_T], and the bottom row of the result is
    [0, 0, 0, 1] whatever the bottom row of the input. *)
Theorem invert_T_frame (h : Store.heap) (T : Store.ref) (A : ndarray) :
  Store.read h T = Ok A ->
  shape 4 4 A ->
  exists B : ndarray,
    Store.invert_T h T = Ok (length h, h ++ [B])
    /\ invert_T A = Ok B
    /\ Store.read (h ++ [B]) T = Ok A
    /\ (forall r : Store.ref,
           (r < length h)%nat -> nth_error (h ++ [B]) r = nth_error h r)
    /\ nth_error B 3 = Some [0; 0; 0; 1].
Proof.
  intros Hread Hs.
  pose proof (invert_T_4_4 A Hs) as Hpure.
  destruct (shape_4_4_inv A Hs)
    as (a00 & a01 & a02 & a03 & a10 & a11 & a12 & a13 &
        a20 & a21 & a22 & a23 & a30 & a31 & a32 & a33 & ->).
  eexists. split; [|split; [exact Hpure|split; [|split]]].
  - unfold Store.invert_T, Store.alloc.
    rewrite Hread. cbn [bind col3 firstn mapM item nth_error of_option].
    rewrite (read_old h (eye 4) _ T Hread).
    rewrite read_alloc.
    cbn [bind block3 firstn map].
    change (set_block3 (eye 4) _) with
      (Ok [[a00; a10; a20; 0]; [a01; a11; a21; 0]; [a02; a12; a22; 0];
           [0; 0; 0; 1]]).
    cbn [bind]. rewrite write_alloc.
    rewrite (read_old h _ _ T Hread).
    cbn [bind col3 firstn mapM item nth_error of_option block3 map].
    rewrite read_alloc.
    cbn -[Store.write]. rewrite write_alloc. reflexivity.
  - now apply read_old.
  - intros r Hr. now apply nth_error_app1.
  - reflexivity.
Qed.

Lemma invert_T_frame_witness :
  exists B : ndarray,
    Store.invert_T [skewed_bottom] 0%nat = Ok (1%nat, [skewed_bottom] ++ [B])
    /\ invert_T skewed_bottom = Ok B
    /\ Store.read ([skewed_bottom] ++ [B]) 0%nat = Ok skewed_bottom
    /\ (forall r : Store.ref,
           (r < 1)%nat ->
           nth_error ([skewed_bottom] ++ [B]) r = nth_error [skewed_bottom] r)
    /\ nth_error B 3 = Some [0; 0; 0; 1].
Proof.
  apply (invert_T_frame [skewed_bottom] 0%nat skewed_bottom).
  - reflexivity.
  - apply shape_intro. reflexivity.
Defined.

(** ** The transform-to-pose converter on 4x4 arrays *)

Lemma rpy_from_R_total (M : ndarray) :
  shape 3 3 M -> exists rpy : R * R * R, rpy_from_R M = Ok rpy.
Proof.
  intros Hs. destruct (Rgt_dec (cos_pitch M) gimbal_eps) as [Hc|Hc].
  - eexists. now apply rpy_from_R_regular.
  - eexists. apply rpy_from_R_gimbal; [assumption|lra].
Qed.

Lemma block3_shape (T : ndarray) : shape 4 4 T -> shape 3 3 (block3 T).
Proof.
  intros Hs.
  destruct (shape_4_4_inv T Hs)
    as (a00 & a01 & a02 & a03 & a10 & a11 & a12 & a13 &
        a20 & a21 & a22 & a23 & a30 & a31 & a32 & a33 & ->).
  apply shape_intro. reflexivity.
Qed.

Lemma xyz_rpy_from_T_4_4 (T : ndarray) :
  shape 4 4 T ->
  xyz_rpy_from_T T =
    (rpy <- rpy_from_R (block3 T) ;;
     Ok (mk_pose (ent T 0 3) (ent T 1 3) (ent T 2 3)
                 (fst (fst rpy)) (snd (fst rpy)) (snd rpy))).
Proof.
  intros Hs.
  destruct (shape_4_4_inv T Hs)
    as (a00 & a01 & a02 & a03 & a10 & a11 & a12 & a13 &
        a20 & a21 & a22 & a23 & a30 & a31 & a32 & a33 & ->).
  unfold xyz_rpy_from_T. cbn [col3 firstn mapM item nth_error of_option bind].
  destruct (rpy_from_R _) as [[[r p] w]|e]; reflexivity.
Qed.

Lemma xyz_rpy_from_T_total (T : ndarray) :
  shape 4 4 T -> exists d : pose, xyz_rpy_from_T T = Ok d.
Proof.
  intros Hs. rewrite (xyz_rpy_from_T_4_4 T Hs).
  destruct (rpy_from_R_total _ (block3_shape T Hs)) as [rpy ->].
  eexists. reflexivity.
Qed.

Lemma invert_T_shape (T : ndarray) :
  shape 4 4 T -> exists B : ndarray, invert_T T = Ok B /\ shape 4 4 B.
Proof.
  intros Hs. rewrite (invert_T_4_4 T Hs). eexists. split; [reflexivity|].
  apply shape_intro. reflexivity.
Qed.

(** The pose of a pure translation. *)
Lemma xyz_rpy_from_T_translation (a b c : R) :
  xyz_rpy_from_T [[1; 0; 0; a]; [0; 1; 0; b]; [0; 0; 1; c]; [0; 0; 0; 1]]
  = Ok (mk_pose a b c 0 0 0).
Proof.
  rewrite xyz_rpy_from_T_4_4 by (apply shape_intro; reflexivity).
  change (block3 _) with (eye 3).
  rewrite (rpy_from_R_regular (eye 3) eye_3_shape)
    by (rewrite cos_pitch_eye_3; pose proof gimbal_eps_bounds; lra).
  rewrite cos_pitch_eye_3.
  cbn -[arctan2].
  replace (- 0) with 0 by ring.
  rewrite (arctan2_0_pos 1) by lra.
  reflexivity.
Qed.

Lemma invert_T_translation (a b c : R) :
  invert_T [[1; 0; 0; a]; [0; 1; 0; b]; [0; 0; 1; c]; [0; 0; 0; 1]]
  = Ok [[1; 0; 0; - a]; [0; 1; 0; - b]; [0; 0; 1; - c]; [0; 0; 0; 1]].
Proof. cbn. f_equal. entrywise; ring. Qed.

(** ** The record transformer [get_info] *)

Lemma dict_get_head {V : Type} (k : string) (v : V) (d : dict.t V) :
  dict.get ((k, v) :: d) k = Some v.
Proof. simpl. now rewrite String.eqb_refl. Qed.

(** One iteration on a sensor key whose first label is [label]. *)
Lemma get_info_body_sensor (items : dict.t json) (xyzrpy : dict.t pose)
  (each_key label : string) (e rest : dict.t json) (m : json) (T : ndarray) :
  each_key <> "state"%string ->
  dict.get items each_key = Some (JObj e) ->
  dict.get e "extrinsics" = Some (JObj ((label, m) :: rest)) ->
  np_array m = Ok T ->
  get_info_body items xyzrpy each_key =
    (data <- stored_pose (snd (name_and_flag label each_key)) T ;;
     Ok (dict.set xyzrpy (fst (name_and_flag label each_key)) data)).
Proof.
  intros Hk Hitem Hext Harr.
  unfold get_info_body, stored_pose.
  apply String.eqb_neq in Hk. rewrite Hk. cbn [negb].
  rewrite Hitem. cbn [of_option bind getitem]. rewrite Hext.
  cbn [of_option bind keys dict.keys map fst nth_error getitem].
  rewrite dict_get_head. cbn [of_option bind]. rewrite Harr. cbn [bind].
  destruct (name_and_flag label each_key) as [name flag]. cbn [fst snd].
  destruct flag.
  - destruct (invert_T T) as [Ti|err]; reflexivity.
  - reflexivity.
Qed.

(** C8.  For a sensor entry whose first extrinsics label is anything but
    ["cTv"], the iteration stores the decomposition of the array as it is
    under ["<label>_<sensorKey>"]; the array is inverted exactly when the first
    label is ["cTv"], and the record is then named ["vTc_<sensorKey>"]. *)
Theorem get_info_inverts_only_cTv (items : dict.t json) (xyzrpy : dict.t pose)
  (each_key label : string) (e rest : dict.t json) (m : json) (T : ndarray) :
  each_key <> "state"%string ->
  dict.get items each_key = Some (JObj e) ->
  dict.get e "extrinsics" = Some (JObj ((label, m) :: rest)) ->
  np_array m = Ok T ->
  (label <> "cTv"%string ->
   get_info_body items xyzrpy each_key =
     (data <- xyz_rpy_from_T T ;;
      Ok (dict.set xyzrpy (label ++ "_" ++ each_key)%string data)))
  /\ (label = "cTv"%string ->
      get_info_body items xyzrpy each_key =
        (T_inv <- invert_T T ;;
         data <- xyz_rpy_from_T T_inv ;;
         Ok (dict.set xyzrpy ("vTc_" ++ each_key)%string data))).
Proof.
  intros Hk Hitem Hext Harr.
  rewrite (get_info_body_sensor _ _ _ _ _ _ _ _ Hk Hitem Hext Harr).
  unfold name_and_flag, stored_pose. split; intros Hl.
  - apply String.eqb_neq in Hl. rewrite Hl. reflexivity.
  - apply String.eqb_eq in Hl. rewrite Hl. cbn [fst snd].
    destruct (invert_T T); reflexivity.
Qed.

Lemma np_array_translation_123 : np_array json_translation_123 = Ok translation_123.
Proof. reflexivity. Qed.

Lemma get_info_cam0_vTc :
  get_info (cam0_file "vTc") =
    Ok [("Audi Q8"%string, [("vTc_cam0"%string, mk_pose 1 2 3 0 0 0)])].
Proof.
  unfold get_info, cam0_file. cbn [dict.keys map fst foldM].
  rewrite (get_info_body_sensor _ [] "cam0" "vTc" (cam0_entry "vTc") []
             json_translation_123 translation_123);
    [|discriminate|reflexivity|reflexivity|reflexivity].
  unfold stored_pose, translation_123. cbn [name_and_flag String.eqb Ascii.eqb
    Bool.eqb fst snd bind].
  rewrite xyz_rpy_from_T_translation. reflexivity.
Qed.

Lemma get_info_cam0_cTv :
  get_info (cam0_file "cTv") =
    Ok [("Audi Q8"%string,
         [("vTc_cam0"%string, mk_pose (- 1) (- 2) (- 3) 0 0 0)])].
Proof.
  unfold get_info, cam0_file. cbn [dict.keys map fst foldM].
  rewrite (get_info_body_sensor _ [] "cam0" "cTv" (cam0_entry "cTv") []
             json_translation_123 translation_123);
    [|discriminate|reflexivity|reflexivity|reflexivity].
  unfold stored_pose, translation_123. cbn [name_and_flag String.eqb Ascii.eqb
    Bool.eqb fst snd bind].
  rewrite invert_T_translation. cbn [bind].
  rewrite xyz_rpy_from_T_translation. reflexivity.
Qed.

(** C1, as the script behaves.  The label ["vTc"] is used as it is: the file
    of the example yields the record ["vTc_cam0"] with [x=1, y=2, z=3] and zero
    angles.  It is the label ["cTv"] that is inverted: the same array under
    ["cTv"] yields ["vTc_cam0"] with [x=-1, y=-2, z=-3].  In general, for a file
    with one sensor whose sole label is [label], the stored pose is
    [xyz_rpy_from_T(invert_T(T))] under ["vTc_<key>"] when [label] is ["cTv"],
    and [xyz_rpy_from_T(T)] under ["<label>_<key>"] otherwise. *)
Theorem get_info_direction :
  get_info (cam0_file "vTc") =
    Ok [("Audi Q8"%string, [("vTc_cam0"%string, mk_pose 1 2 3 0 0 0)])]
  /\ get_info (cam0_file "cTv") =
       Ok [("Audi Q8"%string,
            [("vTc_cam0"%string, mk_pose (- 1) (- 2) (- 3) 0 0 0)])]
  /\ forall (each_key label : string) (e : dict.t json) (m : json)
            (T : ndarray),
       each_key <> "state"%string ->
       dict.get e "extrinsics" = Some (JObj [(label, m)]) ->
       np_array m = Ok T ->
       get_info [(each_key, JObj e)] =
         if String.eqb label "cTv" then
           T_inv <- invert_T T ;;
           data <- xyz_rpy_from_T T_inv ;;
           Ok [("Audi Q8"%string, [(("vTc_" ++ each_key)%string, data)])]
         else
           data <- xyz_rpy_from_T T ;;
           Ok [("Audi Q8"%string,
                [((label ++ "_" ++ each_key)%string, data)])].
Proof.
  split; [exact get_info_cam0_vTc|split; [exact get_info_cam0_cTv|]].
  intros each_key label e m T Hk Hext Harr.
  unfold get_info. cbn [dict.keys map fst foldM].
  rewrite (get_info_body_sensor _ [] each_key label e [] m T Hk
             (dict_get_head _ _ _) Hext Harr).
  unfold name_and_flag, stored_pose.
  destruct (String.eqb label "cTv"); cbn [fst snd bind].
  - destruct (invert_T T) as [Ti|err]; [|reflexivity]. cbn [bind].
    destruct (xyz_rpy_from_T Ti); reflexivity.
  - destruct (xyz_rpy_from_T T); reflexivity.
Qed.

Lemma get_info_direction_witness :
  get_info [("cam0"%string, JObj (cam0_entry "cTv"))] =
    if String.eqb "cTv" "cTv" then
      T_inv <- invert_T translation_123 ;;
      data <- xyz_rpy_from_T T_inv ;;
      Ok [("Audi Q8"%string, [(("vTc_" ++ "cam0")%string, data)])]
    else
      data <- xyz_rpy_from_T translation_123 ;;
      Ok [("Audi Q8"%string, [(("cTv" ++ "_" ++ "cam0")%string, data)])].
Proof.
  apply (proj2 (proj2 get_info_direction)
           "cam0"%string "cTv"%string (cam0_entry "cTv") json_translation_123
           translation_123).
  - discriminate.
  - reflexivity.
  - reflexivity.
Defined.

(** The example of the claim does not hold as stated: under the label
    ["vTc"] no record with the inverted translation is produced. *)
Lemma get_info_cam0_vTc_not_inverted :
  ~ exists p : pose,
      get_info (cam0_file "vTc") =
        Ok [("Audi Q8"%string, [("vTc_cam0"%string, p)])]
      /\ x p = - 1 /\ y p = - 2 /\ z p = - 3
      /\ roll p = 0 /\ pitch p = 0 /\ yaw p = 0.
Proof.
  intros (p & Hrun & Hx & _).
  rewrite get_info_cam0_vTc in Hrun.
  injection Hrun as <-. cbn in Hx. lra.
Qed.

(** *** The reserved key *)

Lemma vTc_name_inj (a b : string) : vTc_name a = vTc_name b -> a = b.
Proof. unfold vTc_name. cbn. intros H. now injection H. Qed.

Lemma name_of_valid_label (label k : string) :
  label = "vTc"%string \/ label = "cTv"%string ->
  fst (name_and_flag label k) = vTc_name k.
Proof. intros [-> | ->]; reflexivity. Qed.

Lemma stored_pose_total (flag : bool) (T : ndarray) :
  shape 4 4 T -> exists d : pose, stored_pose flag T = Ok d.
Proof.
  intros Hs. unfold stored_pose. destruct flag.
  - destruct (invert_T_shape T Hs) as (B & -> & HB). cbn [bind].
    now apply xyz_rpy_from_T_total.
  - cbn [bind]. now apply xyz_rpy_from_T_total.
Qed.

Lemma get_info_body_state (items : dict.t json) (xyzrpy : dict.t pose) :
  get_info_body items xyzrpy "state" = Ok xyzrpy.
Proof. reflexivity. Qed.

Lemma get_info_body_valid (items : dict.t json) (xyzrpy : dict.t pose)
  (k : string) (v : json) :
  is_sensor_key k = true ->
  dict.get items k = Some v ->
  valid_sensor v ->
  exists d : pose,
    get_info_body items xyzrpy k = Ok (dict.set xyzrpy (vTc_name k) d).
Proof.
  intros Hk Hget (e & label & m & T & -> & Hext & Hlabel & Harr & Hs).
  assert (Hk' : k <> "state"%string).
  { apply String.eqb_neq. unfold is_sensor_key in Hk.
    now destruct (String.eqb k "state"). }
  rewrite (get_info_body_sensor _ _ _ _ _ _ _ _ Hk' Hget Hext Harr).
  rewrite (name_of_valid_label label k Hlabel).
  destruct (stored_pose_total (snd (name_and_flag label k)) T Hs) as [d ->].
  exists d. reflexivity.
Qed.

Lemma dict_keys_set_fresh {V : Type} (d : dict.t V) (k : string) (v : V) :
  ~ In k (dict.keys d) -> dict.keys (dict.set d k v) = dict.keys d ++ [k].
Proof.
  induction d as [|[k' v'] d IH]; intros Hfresh; [reflexivity|].
  cbn in *. destruct (String.eqb_spec k' k) as [->|Hne].
  - exfalso. apply Hfresh. now left.
  - cbn. f_equal. apply IH. intros Hin. apply Hfresh. now right.
Qed.

Lemma dict_get_in {V : Type} (d : dict.t V) (k : string) :
  In k (dict.keys d) -> exists v : V, dict.get d k = Some v /\ In (k, v) d.
Proof.
  induction d as [|[k' v'] d IH]; intros Hin; [contradiction|].
  cbn in *. destruct (String.eqb_spec k' k) as [->|Hne].
  - exists v'. split; [reflexivity|now left].
  - destruct Hin as [E|Hin]; [contradiction|].
    destruct (IH Hin) as (v & Hget & Hv). exists v. split; [assumption|now right].
Qed.

(** The loop appends one record per sensor key, named [vTc_<key>]. *)
Lemma foldM_get_info_body (items : dict.t json) (ks : list string) :
  NoDup ks ->
  (forall k : string,
      In k ks -> is_sensor_key k = true ->
      exists v : json, dict.get items k = Some v /\ valid_sensor v) ->
  forall acc : dict.t pose,
    (forall k : string, In k ks -> ~ In (vTc_name k) (dict.keys acc)) ->
    exists out : dict.t pose,
      foldM (get_info_body items) ks acc = Ok out
      /\ dict.keys out
         = dict.keys acc ++ map vTc_name (filter is_sensor_key ks).
Proof.
  induction ks as [|k ks IH]; intros Hnd Hvalid acc Hfresh.
  - exists acc. split; [reflexivity|]. cbn. now rewrite app_nil_r.
  - inversion Hnd as [|? ? Hnotin Hnd']; subst.
    cbn [foldM filter].
    destruct (is_sensor_key k) eqn:Hk.
    + destruct (Hvalid k (or_introl eq_refl) Hk) as (v & Hget & Hv).
      destruct (get_info_body_valid items acc k v Hk Hget Hv) as [d ->].
      cbn [bind].
      destruct (IH Hnd' (fun k' H => Hvalid k' (or_intror H))
                  (dict.set acc (vTc_name k) d)) as (out & Hrun & Hkeys).
      * intros k' Hin.
        rewrite dict_keys_set_fresh by (apply Hfresh; now left).
        intros Hin'. apply in_app_or in Hin' as [Hin'|[E|[]]].
        -- apply (Hfresh k' (or_intror Hin)). assumption.
        -- apply vTc_name_inj in E. subst k'. contradiction.
      * exists out. split; [assumption|].
        rewrite Hkeys, dict_keys_set_fresh by (apply Hfresh; now left).
        cbn [map]. now rewrite <- app_assoc.
    + assert (k = "state"%string) as ->.
      { apply String.eqb_eq. unfold is_sensor_key in Hk.
        now destruct (String.eqb k "state"). }
      rewrite get_info_body_state. cbn [bind].
      apply (IH Hnd' (fun k' H => Hvalid k' (or_intror H)) acc).
      intros k' Hin. apply Hfresh. now right.
Qed.

Lemma length_filter_sensor_keys (ks : list string) :
  NoDup ks ->
  length (filter is_sensor_key ks)
  = if in_dec string_dec "state"%string ks then pred (length ks) else length ks.
Proof.
  induction ks as [|k ks IH]; intros Hnd; [reflexivity|].
  inversion Hnd as [|? ? Hnotin Hnd']; subst.
  specialize (IH Hnd'). cbn [filter].
  destruct (is_sensor_key k) eqn:Hk.
  - assert (Hne : k <> "state"%string).
    { apply String.eqb_neq. unfold is_sensor_key in Hk.
      now destruct (String.eqb k "state"). }
    cbn [length]. rewrite IH.
    destruct (in_dec string_dec "state"%string ks) as [Hin|Hout];
      destruct (in_dec string_dec "state"%string (k :: ks)) as [Hin'|Hout'].
    + destruct ks; [contradiction|reflexivity].
    + exfalso. apply Hout'. now right.
    + exfalso. destruct Hin' as [E|Hin']; [now apply Hne|contradiction].
    + reflexivity.
  - assert (k = "state"%string) as ->.
    { apply String.eqb_eq. unfold is_sensor_key in Hk.
      now destruct (String.eqb k "state"). }
    rewrite IH.
    destruct (in_dec string_dec "state"%string ks) as [Hin|Hout];
      [contradiction|].
    destruct (in_dec string_dec "state"%string ("state"%string :: ks))
      as [_|Hout']; [reflexivity|].
    exfalso. apply Hout'. now left.
Qed.

Lemma get_info_body_ext (items items' : dict.t json) (acc : dict.t pose)
  (k : string) :
  dict.get items' k = dict.get items k ->
  get_info_body items' acc k = get_info_body items acc k.
Proof. intros H. unfold get_info_body. now rewrite H. Qed.

Lemma dict_get_drop_state (items : dict.t json) (k : string) :
  is_sensor_key k = true ->
  dict.get (drop_state items) k = dict.get items k.
Proof.
  intros Hk. unfold drop_state.
  induction items as [|[k' v'] items IH]; [reflexivity|].
  cbn [filter fst dict.get]. destruct (is_sensor_key k') eqn:Hk'.
  - cbn [dict.get]. now rewrite IH.
  - destruct (String.eqb_spec k' k) as [->|_]; [congruence|exact IH].
Qed.

Lemma dict_keys_drop_state (items : dict.t json) :
  dict.keys (drop_state items) = filter is_sensor_key (dict.keys items).
Proof.
  unfold drop_state, dict.keys.
  induction items as [|[k v] items IH]; [reflexivity|].
  cbn [filter map fst]. destruct (is_sensor_key k); cbn [map fst]; now rewrite IH.
Qed.

(** The loop gives the same result on the keys without ["state"], whatever
    table of entries agrees on the sensor keys. *)
Lemma foldM_drop_state (items items' : dict.t json) :
  (forall k : string,
      is_sensor_key k = true -> dict.get items' k = dict.get items k) ->
  forall (ks : list string) (acc : dict.t pose),
    foldM (get_info_body items') (filter is_sensor_key ks) acc
    = foldM (get_info_body items) ks acc.
Proof.
  intros Hext ks. induction ks as [|k ks IH]; intros acc; [reflexivity|].
  cbn [filter foldM]. destruct (is_sensor_key k) eqn:Hk.
  - cbn [foldM]. rewrite (get_info_body_ext items items' acc k (Hext k Hk)).
    destruct (get_info_body items acc k) as [acc'|err]; [|reflexivity].
    cbn [bind]. apply IH.
  - assert (k = "state"%string) as ->.
    { apply String.eqb_eq. unfold is_sensor_key in Hk.
      now destruct (String.eqb k "state"). }
    rewrite get_info_body_state. cbn [bind]. apply IH.
Qed.

Lemma get_info_drop_state (items : dict.t json) :
  get_info (drop_state items) = get_info items.
Proof.
  unfold get_info. rewrite dict_keys_drop_state.
  now rewrite (foldM_drop_state items (drop_state items)
                 (dict_get_drop_state items)).
Qed.

(** C6.  On a calibration file whose entries other than ["state"] are valid
    sensor entries, [get_info] returns exactly one record per key other than
    ["state"], in file order and named [vTc_<key>]; with ["state"] present
    there is one record fewer than keys, and the result is that of the file
    with ["state"] removed. *)
Theorem get_info_skips_state (items : dict.t json) :
  dict.wf items ->
  (forall (k : string) (v : json),
      In (k, v) items -> is_sensor_key k = true -> valid_sensor v) ->
  exists xyzrpy : dict.t pose,
    get_info items = Ok [("Audi Q8"%string, xyzrpy)]
    /\ dict.keys xyzrpy
       = map vTc_name (filter is_sensor_key (dict.keys items))
    /\ length xyzrpy = length (filter is_sensor_key (dict.keys items))
    /\ (In "state"%string (dict.keys items) ->
        S (length xyzrpy) = length items)
    /\ get_info (drop_state items) = Ok [("Audi Q8"%string, xyzrpy)].
Proof.
  intros Hwf Hvalid.
  destruct (foldM_get_info_body items (dict.keys items) Hwf) with (acc := @nil (string * pose))
    as (out & Hrun & Hkeys).
  - intros k Hin Hk. destruct (dict_get_in items k Hin) as (v & Hget & Hv).
    exists v. split; [assumption|]. now apply (Hvalid k v).
  - intros k _ [].
  - cbn [dict.keys map app] in Hkeys.
    assert (Hlen : length out = length (filter is_sensor_key (dict.keys items))).
    { rewrite <- (length_map fst out). fold (dict.keys out).
      now rewrite Hkeys, length_map. }
    assert (Hget : get_info items = Ok [("Audi Q8"%string, out)]).
    { unfold get_info. now rewrite Hrun. }
    exists out. repeat split.
    + exact Hget.
    + exact Hkeys.
    + exact Hlen.
    + intros Hstate. rewrite Hlen, (length_filter_sensor_keys _ Hwf).
      destruct (in_dec string_dec "state"%string (dict.keys items))
        as [_|Hout]; [|contradiction].
      unfold dict.keys. rewrite length_map.
      destruct items; [contradiction|reflexivity].
    + now rewrite get_info_drop_state.
Qed.

Lemma state_file_wf : dict.wf state_file.
Proof.
  unfold dict.wf, state_file. cbn [dict.keys map fst].
  repeat constructor; cbn [In]; intuition discriminate.
Qed.

Lemma cam0_entry_valid (label : string) :
  label = "vTc"%string \/ label = "cTv"%string ->
  valid_sensor (JObj (cam0_entry label)).
Proof.
  intros Hl. exists (cam0_entry label), label, json_translation_123, translation_123.
  repeat split; try assumption. repeat constructor.
Qed.

Lemma state_file_valid (k : string) (v : json) :
  In (k, v) state_file -> is_sensor_key k = true -> valid_sensor v.
Proof.
  intros [E|[E|[E|[]]]] Hk; injection E as <- <-.
  - discriminate.
  - apply cam0_entry_valid. now left.
  - apply cam0_entry_valid. now right.
Qed.

Lemma get_info_skips_state_witness :
  exists xyzrpy : dict.t pose,
    get_info state_file = Ok [("Audi Q8"%string, xyzrpy)]
    /\ dict.keys xyzrpy
       = map vTc_name (filter is_sensor_key (dict.keys state_file))
    /\ length xyzrpy = length (filter is_sensor_key (dict.keys state_file))
    /\ (In "state"%string (dict.keys state_file) ->
        S (length xyzrpy) = length state_file)
    /\ get_info (drop_state state_file) = Ok [("Audi Q8"%string, xyzrpy)].
Proof. exact (get_info_skips_state state_file state_file_wf state_file_valid). Defined.

Lemma get_info_inverts_only_cTv_witness :
  get_info_body (cam0_file "sTv") [] "cam0" =
    (data <- xyz_rpy_from_T translation_123 ;;
     Ok (dict.set [] ("sTv" ++ "_" ++ "cam0")%string data))
  /\ get_info_body (cam0_file "cTv") [] "cam0" =
       (T_inv <- invert_T translation_123 ;;
        data <- xyz_rpy_from_T T_inv ;;
        Ok (dict.set [] ("vTc_" ++ "cam0")%string data)).
Proof.
  split.
  - apply (proj1 (get_info_inverts_only_cTv (cam0_file "sTv") [] "cam0" "sTv"
                    (cam0_entry "sTv") [] json_translation_123 translation_123
                    ltac:(discriminate) eq_refl eq_refl eq_refl)).
    discriminate.
  - apply (proj2 (get_info_inverts_only_cTv (cam0_file "cTv") [] "cam0" "cTv"
                    (cam0_entry "cTv") [] json_translation_123 translation_123
                    ltac:(discriminate) eq_refl eq_refl eq_refl)).
    reflexivity.
Defined.

(** The file with ["state"] and two sensors yields two records. *)
Example get_info_state_file :
  get_info state_file =
    Ok [("Audi Q8"%string,
         [("vTc_cam0"%string, mk_pose 1 2 3 0 0 0);
          ("vTc_lidar0"%string, mk_pose (- 1) (- 2) (- 3) 0 0 0)])].
Proof.
  unfold get_info, state_file. cbn [dict.keys map fst foldM].
  rewrite get_info_body_state. cbn [bind].
  rewrite (get_info_body_sensor _ [] "cam0" "vTc" (cam0_entry "vTc") []
             json_translation_123 translation_123);
    [|discriminate|reflexivity|reflexivity|reflexivity].
  unfold stored_pose, translation_123. cbn [name_and_flag String.eqb Ascii.eqb
    Bool.eqb fst snd bind].
  rewrite xyz_rpy_from_T_translation. cbn [bind dict.set].
  rewrite (get_info_body_sensor _ _ "lidar0" "cTv" (cam0_entry "cTv") []
             json_translation_123 translation_123);
    [|discriminate|reflexivity|reflexivity|reflexivity].
  unfold stored_pose, translation_123. cbn [name_and_flag String.eqb Ascii.eqb
    Bool.eqb fst snd bind].
  rewrite invert_T_translation. cbn [bind].
  rewrite xyz_rpy_from_T_translation. reflexivity.
Qed.

(** * Further properties of the script *)

(** ** [invert_T] without the rigidity assumption *)

(** [invert_T] performs no validation: on a 4x4 array its result is a left
    inverse exactly when the columns of the rotation block are orthonormal
    ([R^T @ R = I]) and the bottom row is [0, 0, 0, 1]. *)
Theorem invert_T_left_inverse_iff (T : ndarray) :
  shape 4 4 T ->
  exists T_inv : ndarray,
    invert_T T = Ok T_inv
    /\ (matmul T_inv T = eye 4
        <-> matmul (transpose (block3 T)) (block3 T) = eye 3
            /\ nth 3 T [] = [0; 0; 0; 1]).
Proof.
  intros Hs.
  destruct (shape_4_4_inv T Hs)
    as (a00 & a01 & a02 & a03 & a10 & a11 & a12 & a13 &
        a20 & a21 & a22 & a23 & a30 & a31 & a32 & a33 & ->).
  eexists. split; [cbn; reflexivity|]. split.
  - intros H. cbn in H.
    injection H as H00 H01 H02 H03 H10 H11 H12 H13 H20 H21 H22 H23
                     H30 H31 H32 H33.
    assert (a30 = 0) as -> by lra. assert (a31 = 0) as -> by lra.
    assert (a32 = 0) as -> by lra. assert (a33 = 1) as -> by lra.
    split; [|reflexivity].
    cbn. entrywise; nsatz.
  - intros [Horth Hbot]. cbn in Hbot. injection Hbot as -> -> -> ->.
    cbn in Horth.
    injection Horth as H00 H01 H02 H10 H11 H12 H20 H21 H22.
    cbn. entrywise; nsatz.
Qed.

Lemma invert_T_left_inverse_iff_witness :
  exists T_inv : ndarray,
    invert_T skewed_bottom = Ok T_inv
    /\ (matmul T_inv skewed_bottom = eye 4
        <-> matmul (transpose (block3 skewed_bottom)) (block3 skewed_bottom)
            = eye 3
            /\ nth 3 skewed_bottom [] = [0; 0; 0; 1]).
Proof.
  apply (invert_T_left_inverse_iff skewed_bottom).
  apply shape_intro. reflexivity.
Defined.

(** An array whose rows have fewer than four columns makes both [invert_T]
    and [xyz_rpy_from_T] raise [IndexError], at [T[:3, 3]]. *)
Theorem column_3_out_of_bounds (T : ndarray) (row : list R) (rows : ndarray) :
  T = row :: rows ->
  (length row <= 3)%nat ->
  invert_T T = Raise IndexError /\ xyz_rpy_from_T T = Raise IndexError.
Proof.
  intros -> Hlen.
  assert (Hcol : col3 (row :: rows) = Raise IndexError).
  { unfold col3. cbn [firstn mapM].
    assert (Hitem : item row 3 = Raise IndexError).
    { unfold item. destruct (nth_error row 3) eqn:E; [|reflexivity].
      exfalso.
      assert (nth_error row 3 <> None) as Hne by congruence.
      apply nth_error_Some in Hne. lia. }
    now rewrite Hitem. }
  unfold invert_T, xyz_rpy_from_T. now rewrite Hcol.
Qed.

Lemma column_3_out_of_bounds_witness :
  invert_T (eye 3) = Raise IndexError
  /\ xyz_rpy_from_T (eye 3) = Raise IndexError.
Proof.
  apply (column_3_out_of_bounds (eye 3) [1; 0; 0] [[0; 1; 0]; [0; 0; 1]]).
  - reflexivity.
  - cbn. lia.
Defined.

(** The pose of the inverse: its translation is [-R^T t] and its angles are
    those of [R^T]. *)
Theorem xyz_rpy_from_T_of_invert_T (T : ndarray) :
  shape 4 4 T ->
  exists (T_inv : ndarray) (d : pose),
    invert_T T = Ok T_inv
    /\ xyz_rpy_from_T T_inv = Ok d
    /\ x d = - (ent T 0 0 * ent T 0 3 + ent T 1 0 * ent T 1 3
                + ent T 2 0 * ent T 2 3)
    /\ y d = - (ent T 0 1 * ent T 0 3 + ent T 1 1 * ent T 1 3
                + ent T 2 1 * ent T 2 3)
    /\ z d = - (ent T 0 2 * ent T 0 3 + ent T 1 2 * ent T 1 3
                + ent T 2 2 * ent T 2 3)
    /\ rpy_from_R (transpose (block3 T)) = Ok (roll d, pitch d, yaw d).
Proof.
  intros Hs.
  destruct (invert_T_shape T Hs) as (B & HB & HsB).
  destruct (xyz_rpy_from_T_total B HsB) as [d Hd].
  exists B, d. split; [exact HB|]. split; [exact Hd|].
  rewrite (xyz_rpy_from_T_4_4 B HsB) in Hd.
  rewrite (invert_T_4_4 T Hs) in HB. injection HB as <-.
  destruct (shape_4_4_inv T Hs)
    as (a00 & a01 & a02 & a03 & a10 & a11 & a12 & a13 &
        a20 & a21 & a22 & a23 & a30 & a31 & a32 & a33 & ->).
  cbn [block3 firstn map ent nth transpose hd length seq] in *.
  destruct (rpy_from_R _) as [[[r p] w]|err]; [|discriminate].
  cbn in Hd. injection Hd as <-. cbn.
  repeat split; ring.
Qed.

Lemma xyz_rpy_from_T_of_invert_T_witness :
  exists (T_inv : ndarray) (d : pose),
    invert_T skewed_bottom = Ok T_inv
    /\ xyz_rpy_from_T T_inv = Ok d
    /\ x d = - (ent skewed_bottom 0 0 * ent skewed_bottom 0 3
                + ent skewed_bottom 1 0 * ent skewed_bottom 1 3
                + ent skewed_bottom 2 0 * ent skewed_bottom 2 3)
    /\ y d = - (ent skewed_bottom 0 1 * ent skewed_bottom 0 3
                + ent skewed_bottom 1 1 * ent skewed_bottom 1 3
                + ent skewed_bottom 2 1 * ent skewed_bottom 2 3)
    /\ z d = - (ent skewed_bottom 0 2 * ent skewed_bottom 0 3
                + ent skewed_bottom 1 2 * ent skewed_bottom 1 3
                + ent skewed_bottom 2 2 * ent skewed_bottom 2 3)
    /\ rpy_from_R (transpose (block3 skewed_bottom))
       = Ok (roll d, pitch d, yaw d).
Proof.
  apply (xyz_rpy_from_T_of_invert_T skewed_bottom).
  apply shape_intro. reflexivity.
Defined.

(** ** Ranges and round trips of [rpy_from_R] *)




(** Away from gimbal lock [rpy_from_R] inverts the product
    [Rz(a) @ (Ry(b) @ Rx(c))]: it returns [roll = a], the angle about Z,
    [pitch = b] and [yaw = c], the angle about X. *)
Theorem rpy_from_R_inverts_Rz_Ry_Rx (a b c : R) :
  - PI < a <= PI ->
  Rabs b < 89 * (PI / 180) ->
  - PI < c <= PI ->
  rpy_from_R (matmul (Rz a) (matmul (Ry b) (Rx c))) = Ok (a, b, c).
Proof.
  intros Ha Hb Hc.
  rewrite <- R_from_rpy_product.
  now apply rpy_from_R_of_R_from_rpy.
Qed.

Lemma rpy_from_R_inverts_Rz_Ry_Rx_witness :
  rpy_from_R (matmul (Rz 1) (matmul (Ry (1 / 2)) (Rx (- 1))))
  = Ok (1, 1 / 2, - 1).
Proof.
  apply (rpy_from_R_inverts_Rz_Ry_Rx 1 (1 / 2) (- 1)); pose proof PI_gt_3.
  - lra.
  - rewrite Rabs_right by lra. lra.
  - lra.
Defined.





(** ** [get_info]: the reserved key, failures and the records *)

(** The result of [get_info], error included, depends only on the entries
    other than ["state"]: two files that agree once ["state"] is removed give
    the same result. *)
Theorem get_info_ignores_state (items items' : dict.t json) :
  drop_state items = drop_state items' ->
  get_info items = get_info items'.
Proof.
  intros H. rewrite <- (get_info_drop_state items), H.
  apply get_info_drop_state.
Qed.

Lemma get_info_ignores_state_witness :
  get_info state_file
  = get_info [ ("cam0"%string, JObj (cam0_entry "vTc"));
               ("state"%string, JNull);
               ("lidar0"%string, JObj (cam0_entry "cTv")) ].
Proof. apply (get_info_ignores_state state_file). reflexivity. Defined.

Lemma not_sensor_key (k : string) : k <> "state"%string -> is_sensor_key k = true.
Proof.
  intros Hk. unfold is_sensor_key. apply String.eqb_neq in Hk. now rewrite Hk.
Qed.

Lemma sensor_key_not_state (k : string) :
  is_sensor_key k = true -> k <> "state"%string.
Proof.
  unfold is_sensor_key. intros Hk. apply String.eqb_neq.
  now destruct (String.eqb k "state").
Qed.

Lemma drop_state_only_state (pre : dict.t json) :
  Forall (fun kv => fst kv = "state"%string) pre -> drop_state pre = [].
Proof.
  unfold drop_state. induction 1 as [|[k v] pre Hk _ IH]; [reflexivity|].
  cbn in Hk. subst k. cbn. exact IH.
Qed.

(** An error on the first sensor of the file is the result of the run. *)
Lemma get_info_first_sensor_raises (pre rest : dict.t json) (k : string)
  (v : json) (err : exn) :
  Forall (fun kv => fst kv = "state"%string) pre ->
  k <> "state"%string ->
  get_info_body ((k, v) :: drop_state rest) [] k = Raise err ->
  get_info (pre ++ (k, v) :: rest) = Raise err.
Proof.
  intros Hpre Hk Hbody.
  rewrite <- get_info_drop_state.
  unfold drop_state at 1. rewrite filter_app. fold (drop_state pre).
  rewrite (drop_state_only_state pre Hpre). cbn [app filter fst].
  rewrite (not_sensor_key k Hk). fold (drop_state rest).
  unfold get_info. cbn [dict.keys map fst foldM].
  fold (@dict.keys json (drop_state rest)).
  now rewrite Hbody.
Qed.

(** A malformed entry stops the run, whatever follows it in the file.  When
    the first key other than ["state"] holds a value that is not an object the
    run raises [TypeError]; an object without ["extrinsics"] raises [KeyError];
    an ["extrinsics"] that is not an object raises [AttributeError]; an empty
    ["extrinsics"] object raises [IndexError]. *)
Theorem get_info_malformed_entry (pre rest : dict.t json) (k : string)
  (v : json) :
  Forall (fun kv => fst kv = "state"%string) pre ->
  k <> "state"%string ->
  ((forall e : dict.t json, v <> JObj e) ->
   get_info (pre ++ (k, v) :: rest) = Raise TypeError)
  /\ (forall e : dict.t json,
         v = JObj e -> dict.get e "extrinsics" = None ->
         get_info (pre ++ (k, v) :: rest) = Raise KeyError)
  /\ (forall (e : dict.t json) (ext : json),
         v = JObj e -> dict.get e "extrinsics" = Some ext ->
         (forall d : dict.t json, ext <> JObj d) ->
         get_info (pre ++ (k, v) :: rest) = Raise AttributeError)
  /\ (forall e : dict.t json,
         v = JObj e -> dict.get e "extrinsics" = Some (JObj []) ->
         get_info (pre ++ (k, v) :: rest) = Raise IndexError).
Proof.
  intros Hpre Hk.
  assert (Hstep : forall err,
             (x <- getitem v "extrinsics" ;; ks <- keys x ;;
              of_option IndexError (nth_error ks 0)) = Raise err ->
             get_info (pre ++ (k, v) :: rest) = Raise err).
  { intros err H. apply get_info_first_sensor_raises; try assumption.
    unfold get_info_body. rewrite (proj2 (String.eqb_neq _ _) Hk). cbn [negb].
    rewrite dict_get_head. cbn [of_option bind].
    destruct (getitem v "extrinsics") as [x|e1]; cbn [bind] in *;
      [|congruence].
    destruct (keys x) as [ks|e2]; cbn [bind] in *; [|congruence].
    destruct (nth_error ks 0); cbn [of_option bind] in *; congruence. }
  repeat split.
  - intros Hv. apply Hstep. destruct v; try reflexivity.
    exfalso. now apply (Hv d).
  - intros e -> Hext. apply Hstep. cbn [getitem]. now rewrite Hext.
  - intros e ext -> Hext Hnot. apply Hstep. cbn [getitem]. rewrite Hext.
    cbn [of_option bind]. destruct ext; try reflexivity.
    exfalso. now apply (Hnot d).
  - intros e -> Hext. apply Hstep. cbn [getitem]. now rewrite Hext.
Qed.

Lemma get_info_malformed_entry_witness :
  get_info ([("state"%string, JNull)] ++ ("radar0"%string, JStr "n/a")
              :: cam0_file "vTc")
  = Raise TypeError
  /\ get_info ([] ++ ("radar0"%string, JObj [("intrinsics"%string, JNull)])
                  :: state_file)
     = Raise KeyError
  /\ get_info ([] ++ ("radar0"%string, JObj [("extrinsics"%string, JArr [])])
                  :: state_file)
     = Raise AttributeError
  /\ get_info ([] ++ ("radar0"%string, JObj [("extrinsics"%string, JObj [])])
                  :: state_file)
     = Raise IndexError.
Proof.
  split; [|split; [|split]].
  - apply (proj1 (get_info_malformed_entry [("state"%string, JNull)]
                    (cam0_file "vTc") "radar0" (JStr "n/a") ltac:(repeat constructor)
                    ltac:(discriminate))).
    discriminate.
  - apply (proj1 (proj2 (get_info_malformed_entry [] state_file "radar0"
                           (JObj [("intrinsics"%string, JNull)])
                           ltac:(constructor) ltac:(discriminate)))
             [("intrinsics"%string, JNull)]); reflexivity.
  - apply (proj1 (proj2 (proj2 (get_info_malformed_entry [] state_file "radar0"
                           (JObj [("extrinsics"%string, JArr [])])
                           ltac:(constructor) ltac:(discriminate))))
             [("extrinsics"%string, JArr [])] (JArr []));
      [reflexivity|reflexivity|discriminate].
  - apply (proj2 (proj2 (proj2 (get_info_malformed_entry [] state_file "radar0"
                           (JObj [("extrinsics"%string, JObj [])])
                           ltac:(constructor) ltac:(discriminate))))
             [("extrinsics"%string, JObj [])]); reflexivity.
Defined.

Lemma foldM_cons_ok {A S : Type} (f : S -> A -> result S) (a : A)
  (l : list A) (s out : S) :
  foldM f (a :: l) s = Ok out ->
  exists s' : S, f s a = Ok s' /\ foldM f l s' = Ok out.
Proof.
  cbn [foldM]. destruct (f s a) as [s'|err]; cbn [bind]; [|discriminate].
  intros H. now exists s'.
Qed.

(** What a successful iteration has read and written. *)
Lemma get_info_body_ok (items : dict.t json) (acc acc' : dict.t pose)
  (k : string) :
  get_info_body items acc k = Ok acc' ->
  k <> "state"%string ->
  exists (e rest : dict.t json) (label : string) (m : json) (T : ndarray)
         (d : pose),
    dict.get items k = Some (JObj e)
    /\ dict.get e "extrinsics" = Some (JObj ((label, m) :: rest))
    /\ np_array m = Ok T
    /\ stored_pose (snd (name_and_flag label k)) T = Ok d
    /\ acc' = dict.set acc (fst (name_and_flag label k)) d.
Proof.
  intros Hrun Hk.
  assert (Hitem : exists e, dict.get items k = Some (JObj e)).
  { unfold get_info_body in Hrun.
    rewrite (proj2 (String.eqb_neq _ _) Hk) in Hrun. cbn [negb] in Hrun.
    destruct (dict.get items k) as [[| | | | |e]|]; try discriminate.
    now exists e. }
  destruct Hitem as [e Hitem].
  assert (Hext : exists label m rest,
             dict.get e "extrinsics" = Some (JObj ((label, m) :: rest))).
  { unfold get_info_body in Hrun.
    rewrite (proj2 (String.eqb_neq _ _) Hk), Hitem in Hrun.
    cbn [negb of_option bind getitem] in Hrun.
    destruct (dict.get e "extrinsics") as [[| | | | |[|[label m] rest]]|];
      try discriminate.
    now exists label, m, rest. }
  destruct Hext as (label & m & rest & Hext).
  assert (Harr : exists T, np_array m = Ok T).
  { unfold get_info_body in Hrun.
    rewrite (proj2 (String.eqb_neq _ _) Hk), Hitem in Hrun.
    cbn [negb of_option bind getitem] in Hrun. rewrite Hext in Hrun.
    cbn [of_option bind keys dict.keys map fst nth_error getitem] in Hrun.
    rewrite dict_get_head in Hrun. cbn [of_option bind] in Hrun.
    destruct (name_and_flag label k) as [name flag].
    destruct (np_array m) as [T|err]; [now exists T|discriminate]. }
  destruct Harr as [T Harr].
  rewrite (get_info_body_sensor _ _ _ _ _ _ _ _ Hk Hitem Hext Harr) in Hrun.
  destruct (stored_pose _ T) as [d|err] eqn:Hd; [|discriminate].
  cbn [bind] in Hrun. injection Hrun as <-.
  now exists e, rest, label, m, T, d.
Qed.



Lemma dict_get_set_same {V : Type} (d : dict.t V) (k : string) (v : V) :
  dict.get (dict.set d k v) k = Some v.
Proof.
  induction d as [|[k' v'] d IH]; cbn.
  - now rewrite String.eqb_refl.
  - destruct (String.eqb k' k) eqn:E; cbn; rewrite E; [reflexivity|exact IH].
Qed.

Lemma dict_get_set_other {V : Type} (d : dict.t V) (k n : string) (v : V) :
  k <> n -> dict.get (dict.set d k v) n = dict.get d n.
Proof.
  intros Hne. induction d as [|[k' v'] d IH]; cbn.
  - apply String.eqb_neq in Hne. now rewrite Hne.
  - destruct (String.eqb_spec k' k) as [->|Hk]; cbn.
    + apply String.eqb_neq in Hne. now rewrite Hne.
    + destruct (String.eqb k' n); [reflexivity|exact IH].
Qed.

Lemma dict_keys_set_present {V : Type} (d : dict.t V) (k : string) (v : V) :
  In k (dict.keys d) -> dict.keys (dict.set d k v) = dict.keys d.
Proof.
  induction d as [|[k' v'] d IH]; intros Hin; [contradiction|].
  cbn in *. destruct (String.eqb_spec k' k) as [->|Hne]; [reflexivity|].
  cbn. f_equal. apply IH. destruct Hin as [E|Hin]; [contradiction|assumption].
Qed.

Lemma dict_set_wf {V : Type} (d : dict.t V) (k : string) (v : V) :
  dict.wf d ->
  dict.wf (dict.set d k v)
  /\ (length (dict.set d k v) <= S (length d))%nat.
Proof.
  unfold dict.wf. intros Hwf.
  assert (Hlen : forall d' : dict.t V, length d' = length (dict.keys d'))
    by (intros d'; unfold dict.keys; now rewrite length_map).
  rewrite !Hlen.
  destruct (in_dec string_dec k (dict.keys d)) as [Hin|Hout].
  - rewrite dict_keys_set_present by assumption. split; [assumption|lia].
  - rewrite dict_keys_set_fresh by assumption. split.
    + apply NoDup_app; [assumption|repeat constructor; intros []|].
      intros n Hn [<-|[]]. contradiction.
    + rewrite length_app. cbn. lia.
Qed.

(** The records written by iterations on other names are left alone. *)
Lemma foldM_get_info_body_other (items : dict.t json) (n : string)
  (ks : list string) :
  forall acc out : dict.t pose,
    foldM (get_info_body items) ks acc = Ok out ->
    (forall (k label : string) (e rest : dict.t json) (m : json),
        In k ks -> k <> "state"%string ->
        dict.get items k = Some (JObj e) ->
        dict.get e "extrinsics" = Some (JObj ((label, m) :: rest)) ->
        fst (name_and_flag label k) <> n) ->
    dict.get out n = dict.get acc n.
Proof.
  induction ks as [|k ks IH]; intros acc out Hfold Hnames.
  - cbn in Hfold. now injection Hfold as <-.
  - apply foldM_cons_ok in Hfold as (acc' & Hbody & Hfold).
    rewrite (IH acc' out Hfold)
      by (intros k' label e rest m Hin; apply Hnames; now right).
    destruct (String.eqb_spec k "state") as [->|Hk].
    + rewrite get_info_body_state in Hbody. now injection Hbody as <-.
    + destruct (get_info_body_ok _ _ _ _ Hbody Hk)
        as (e & rest & label & m & T & d & H1 & H2 & _ & _ & ->).
      apply dict_get_set_other.
      apply (Hnames k label e rest m); [now left|assumption..].
Qed.

Lemma get_info_valid_ok (items : dict.t json) :
  dict.wf items ->
  (forall (k : string) (v : json),
      In (k, v) items -> is_sensor_key k = true -> valid_sensor v) ->
  exists xyzrpy : dict.t pose, get_info items = Ok [("Audi Q8"%string, xyzrpy)].
Proof.
  intros Hwf Hvalid.
  destruct (foldM_get_info_body items (dict.keys items) Hwf)
    with (acc := @nil (string * pose)) as (out & Hrun & _).
  - intros k Hin Hk. destruct (dict_get_in items k Hin) as (v & Hget & Hv).
    exists v. split; [assumption|]. now apply (Hvalid k v).
  - intros k _ [].
  - exists out. unfold get_info. now rewrite Hrun.
Qed.

Lemma dict_wf_unique {V : Type} (d : dict.t V) (k : string) (v v' : V) :
  dict.wf d -> In (k, v) d -> In (k, v') d -> v = v'.
Proof.
  unfold dict.wf, dict.keys.
  induction d as [|[k0 v0] d IH]; intros Hnd Hv Hv'; [contradiction|].
  cbn in Hnd. inversion Hnd as [|? ? Hnotin Hnd']; subst.
  destruct Hv as [E|Hv], Hv' as [E'|Hv'].
  - congruence.
  - injection E as -> ->. exfalso. apply Hnotin.
    now apply (in_map fst d (k, v')).
  - injection E' as -> ->. exfalso. apply Hnotin.
    now apply (in_map fst d (k, v)).
  - now apply IH.
Qed.

(** On a file of valid sensor entries the record [vTc_<key>] holds the pose
    of the sensor [key]: the decomposition of its own array, inverted when its
    label is ["cTv"]. *)
Theorem get_info_record_lookup (items : dict.t json) (k label : string)
  (e : dict.t json) (m : json) (T : ndarray) :
  dict.wf items ->
  (forall (k' : string) (v : json),
      In (k', v) items -> is_sensor_key k' = true -> valid_sensor v) ->
  k <> "state"%string ->
  In (k, JObj e) items ->
  dict.get e "extrinsics" = Some (JObj [(label, m)]) ->
  np_array m = Ok T ->
  exists (xyzrpy : dict.t pose) (d : pose),
    get_info items = Ok [("Audi Q8"%string, xyzrpy)]
    /\ stored_pose (String.eqb label "cTv") T = Ok d
    /\ dict.get xyzrpy (vTc_name k) = Some d.
Proof.
  intros Hwf Hvalid Hk Hin Hext Harr.
  destruct (get_info_valid_ok items Hwf Hvalid) as (xyzrpy & Hrun).
  assert (Hlabel : label = "vTc"%string \/ label = "cTv"%string).
  { destruct (Hvalid k (JObj e) Hin (not_sensor_key k Hk))
      as (e' & label' & m' & T' & He & Hext' & Hl & _).
    injection He as <-. rewrite Hext in Hext'. now injection Hext' as -> _. }
  assert (Hflag : snd (name_and_flag label k) = String.eqb label "cTv").
  { unfold name_and_flag. now destruct (String.eqb label "cTv"). }
  assert (Hs : shape 4 4 T).
  { destruct (Hvalid k (JObj e) Hin (not_sensor_key k Hk))
      as (e' & label' & m' & T' & He & Hext' & _ & Harr' & Hs).
    injection He as <-. rewrite Hext in Hext'. injection Hext' as <- <-.
    rewrite Harr in Harr'. now injection Harr' as <-. }
  destruct (stored_pose_total (String.eqb label "cTv") T Hs) as [d Hd].
  exists xyzrpy, d. split; [exact Hrun|]. split; [exact Hd|].
  unfold get_info in Hrun.
  destruct (foldM _ _ _) as [out|err] eqn:Hfold; [|discriminate].
  cbn [bind] in Hrun. injection Hrun as <-.
  assert (Hkeys : In k (dict.keys items)).
  { unfold dict.keys. now apply (in_map fst items (k, JObj e)). }
  assert (Hget : dict.get items k = Some (JObj e)).
  { destruct (dict_get_in items k Hkeys) as (v & Hget & Hv).
    rewrite Hget. f_equal.
    apply (dict_wf_unique items k v (JObj e) Hwf Hv Hin). }
  revert Hfold. generalize (@nil (string * pose)).
  unfold dict.wf in Hwf. revert Hwf Hkeys.
  assert (Hvalid' : forall k', In k' (dict.keys items) ->
            is_sensor_key k' = true ->
            exists v, dict.get items k' = Some v /\ valid_sensor v).
  { intros k' Hin' Hk'. destruct (dict_get_in items k' Hin') as (v & Hg & Hv).
    exists v. split; [assumption|]. now apply (Hvalid k' v). }
  revert Hvalid'.
  induction (dict.keys items) as [|k0 ks IH];
    intros Hvalid' Hnd Hkin acc Hfold; [contradiction|].
  inversion Hnd as [|? ? Hnotin Hnd']; subst.
  apply foldM_cons_ok in Hfold as (acc' & Hbody & Hfold).
  destruct (string_dec k0 k) as [->|Hne].
  - rewrite (get_info_body_sensor _ _ _ _ _ _ _ _ Hk Hget Hext Harr) in Hbody.
    rewrite Hflag, Hd, (name_of_valid_label label k Hlabel) in Hbody.
    cbn [bind] in Hbody. injection Hbody as <-.
    rewrite (foldM_get_info_body_other items (vTc_name k) ks _ _ Hfold).
    + apply dict_get_set_same.
    + intros k' label' e' rest' m' Hin' Hk' Hg' Hext'.
      destruct (Hvalid' k' (or_intror Hin') (not_sensor_key k' Hk'))
        as (v & Hg & (e2 & l2 & m2 & T2 & -> & Hext2 & Hl2 & _)).
      rewrite Hg' in Hg. injection Hg as ->. rewrite Hext' in Hext2.
      injection Hext2 as -> _ _.
      rewrite (name_of_valid_label l2 k' Hl2).
      intros E. apply vTc_name_inj in E. subst k'. contradiction.
  - destruct Hkin as [E|Hkin]; [contradiction|].
    apply (IH (fun k' H => Hvalid' k' (or_intror H)) Hnd' Hkin acc' Hfold).
Qed.

Lemma get_info_record_lookup_witness :
  exists (xyzrpy : dict.t pose) (d : pose),
    get_info state_file = Ok [("Audi Q8"%string, xyzrpy)]
    /\ stored_pose (String.eqb "cTv" "cTv") translation_123 = Ok d
    /\ dict.get xyzrpy (vTc_name "lidar0") = Some d.
Proof.
  apply (get_info_record_lookup state_file "lidar0" "cTv" (cam0_entry "cTv")
           json_translation_123 translation_123 state_file_wf state_file_valid).
  - discriminate.
  - right. right. left. reflexivity.
  - reflexivity.
  - reflexivity.
Defined.

(** Two sensors whose labels and keys derive the same record name share one
    record: the run succeeds with a single record, which holds the pose of the
    sensor that comes later in the file. *)
Theorem get_info_name_collision (k1 k2 l1 l2 : string)
  (e1 e2 r1 r2 : dict.t json) (m1 m2 : json) (T1 T2 : ndarray) (d1 d2 : pose) :
  k1 <> "state"%string -> k2 <> "state"%string -> k1 <> k2 ->
  dict.get e1 "extrinsics" = Some (JObj ((l1, m1) :: r1)) ->
  dict.get e2 "extrinsics" = Some (JObj ((l2, m2) :: r2)) ->
  np_array m1 = Ok T1 -> np_array m2 = Ok T2 ->
  stored_pose (snd (name_and_flag l1 k1)) T1 = Ok d1 ->
  stored_pose (snd (name_and_flag l2 k2)) T2 = Ok d2 ->
  fst (name_and_flag l1 k1) = fst (name_and_flag l2 k2) ->
  get_info [(k1, JObj e1); (k2, JObj e2)]
  = Ok [("Audi Q8"%string, [(fst (name_and_flag l2 k2), d2)])].
Proof.
  intros Hk1 Hk2 Hne Hext1 Hext2 Harr1 Harr2 Hd1 Hd2 Hname.
  unfold get_info. cbn [dict.keys map fst foldM].
  rewrite (get_info_body_sensor _ [] k1 l1 e1 r1 m1 T1 Hk1
             (dict_get_head _ _ _) Hext1 Harr1).
  rewrite Hd1. cbn [bind dict.set].
  assert (Hget2 : dict.get [(k1, JObj e1); (k2, JObj e2)] k2 = Some (JObj e2)).
  { cbn [dict.get]. rewrite (proj2 (String.eqb_neq _ _) Hne).
    now rewrite String.eqb_refl. }
  rewrite (get_info_body_sensor _ _ k2 l2 e2 r2 m2 T2 Hk2 Hget2 Hext2 Harr2).
  rewrite Hd2. cbn [bind]. rewrite Hname. cbn [dict.set].
  now rewrite String.eqb_refl.
Qed.

Lemma get_info_name_collision_witness :
  get_info [ ("b_c"%string, JObj (translation_entry "a" 1 2 3));
             ("c"%string, JObj (translation_entry "a_b" 4 5 6)) ]
  = Ok [("Audi Q8"%string,
         [(fst (name_and_flag "a_b" "c"), mk_pose 4 5 6 0 0 0)])].
Proof.
  apply (get_info_name_collision "b_c" "c" "a" "a_b"
           (translation_entry "a" 1 2 3) (translation_entry "a_b" 4 5 6) [] []
           (json_translation 1 2 3) (json_translation 4 5 6)
           (translation 1 2 3) (translation 4 5 6)
           (mk_pose 1 2 3 0 0 0) (mk_pose 4 5 6 0 0 0));
    try discriminate; try reflexivity.
  - apply xyz_rpy_from_T_translation.
  - apply xyz_rpy_from_T_translation.
Defined.

(** Whatever the labels, a successful run returns the single key
    ["Audi Q8"] over records with pairwise distinct names, at most one per key
    of the file other than ["state"]. *)
Theorem get_info_record_bound (items : dict.t json)
  (out : dict.t (dict.t pose)) :
  get_info items = Ok out ->
  exists xyzrpy : dict.t pose,
    out = [("Audi Q8"%string, xyzrpy)]
    /\ dict.wf xyzrpy
    /\ (length xyzrpy <= length (filter is_sensor_key (dict.keys items)))%nat.
Proof.
  unfold get_info. intros Hrun.
  destruct (foldM _ _ _) as [xyzrpy|err] eqn:Hfold; [|discriminate].
  cbn [bind] in Hrun. injection Hrun as <-.
  exists xyzrpy. split; [reflexivity|].
  assert (Hgen : forall (ks : list string) (acc res : dict.t pose),
             foldM (get_info_body items) ks acc = Ok res ->
             dict.wf acc ->
             dict.wf res
             /\ (length res
                 <= length acc + length (filter is_sensor_key ks))%nat).
  { induction ks as [|k ks IH]; intros acc res Hf Hwf.
    - cbn in Hf. injection Hf as <-. split; [assumption|cbn; lia].
    - apply foldM_cons_ok in Hf as (acc' & Hbody & Hf).
      cbn [filter]. destruct (String.eqb_spec k "state") as [->|Hk].
      + rewrite get_info_body_state in Hbody. injection Hbody as <-.
        cbn. now apply IH.
      + rewrite (not_sensor_key k Hk).
        destruct (get_info_body_ok _ _ _ _ Hbody Hk)
          as (e & rest & label & m & T & d & _ & _ & _ & _ & ->).
        destruct (dict_set_wf acc (fst (name_and_flag label k)) d Hwf)
          as [Hwf' Hlen].
        destruct (IH _ _ Hf Hwf') as [Hres Hbound].
        split; [assumption|]. cbn [length]. lia. }
  apply (Hgen _ [] xyzrpy Hfold). unfold dict.wf. constructor.
Qed.

Lemma get_info_record_bound_witness :
  exists xyzrpy : dict.t pose,
    [("Audi Q8"%string,
      [("vTc_cam0"%string, mk_pose 1 2 3 0 0 0);
       ("vTc_lidar0"%string, mk_pose (- 1) (- 2) (- 3) 0 0 0)])]
    = [("Audi Q8"%string, xyzrpy)]
    /\ dict.wf xyzrpy
    /\ (length xyzrpy
        <= length (filter is_sensor_key (dict.keys state_file)))%nat.
Proof. exact (get_info_record_bound state_file _ get_info_state_file). Defined.

(** The two labels are normalised to one report: a sensor given as ["cTv"]
    over [T] and the same sensor given as ["vTc"] over the array that
    [invert_T] computes from [T] produce the same output. *)
Theorem get_info_normalises_direction (k : string) (e1 e2 r1 r2 : dict.t json)
  (m1 m2 : json) (T T_inv : ndarray) :
  k <> "state"%string ->
  dict.get e1 "extrinsics" = Some (JObj (("cTv"%string, m1) :: r1)) ->
  dict.get e2 "extrinsics" = Some (JObj (("vTc"%string, m2) :: r2)) ->
  np_array m1 = Ok T ->
  np_array m2 = Ok T_inv ->
  invert_T T = Ok T_inv ->
  get_info [(k, JObj e1)] = get_info [(k, JObj e2)].
Proof.
  intros Hk Hext1 Hext2 Harr1 Harr2 Hinv.
  unfold get_info. cbn [dict.keys map fst foldM].
  rewrite (get_info_body_sensor _ [] k "cTv" e1 r1 m1 T Hk
             (dict_get_head _ _ _) Hext1 Harr1).
  rewrite (get_info_body_sensor _ [] k "vTc" e2 r2 m2 T_inv Hk
             (dict_get_head _ _ _) Hext2 Harr2).
  unfold stored_pose. cbn [name_and_flag String.eqb Ascii.eqb Bool.eqb fst snd].
  rewrite Hinv. reflexivity.
Qed.

Lemma get_info_normalises_direction_witness :
  get_info [("cam0"%string, JObj (translation_entry "cTv" 1 2 3))]
  = get_info [("cam0"%string,
               JObj (translation_entry "vTc" (- 1) (- 2) (- 3)))].
Proof.
  apply (get_info_normalises_direction "cam0"
           (translation_entry "cTv" 1 2 3)
           (translation_entry "vTc" (- 1) (- 2) (- 3)) [] []
           (json_translation 1 2 3) (json_translation (- 1) (- 2) (- 3))
           (translation 1 2 3) (translation (- 1) (- 2) (- 3)));
    try discriminate; try reflexivity.
  apply invert_T_translation.
Defined.
